(** * nn-arch-viz: the layout computation of [NetworkGraph.tsx] and the
      layer/settings editing functions of [Sidebar.tsx]

    Conventions of the embedding.

    - A TypeScript [number] that counts or indexes ([neurons], [weightSeed],
      array indices, loop counters) is an integer: [Z] where the source can
      hold a negative value, [nat] for array indices and loop counters that
      start at 0.
      The link counter is exact in [Z]; the source's counter is a binary64
      number, which counts exactly between -2^53 and 2^53, and the statements
      about the value of a weight are made for counters in that range.
    - A [number] that is a length or a coordinate ([nodeDiameter],
      [layerSpacing], the viewport, [x], [y]) is a rational [Q] and the
      arithmetic on coordinates is exact. Binary64 arithmetic is exact too on
      the inputs the application produces (whole-number settings from the
      sliders, a viewport in whole pixels, neuron counts from 1 to 50:
      [slider_settings], [pixel_viewport], [valid_counts]); every statement
      about the value of a coordinate is made for such inputs.
    - A link weight is a rational [Q] too (every finite binary64 number is
      one). [Math.sin] and the rounding of a result to binary64 are
      parameters of the development ([Float64]): [seededRandom] rounds its
      product and its difference as the source does.
    - [num.toString()] is the plain decimal rendering, which is what
      JavaScript prints for an integer below 10^21 in magnitude; the
      statements about superscripts are made for such numbers.
    - A JavaScript array of objects is a list of references into a store of
      objects where the source mutates through it ([Sidebar.tsx]), and a list
      of records where it is only read ([NetworkGraph.tsx]). *)

From stdpp Require Import base numbers list strings pretty gmap.
From Stdlib Require Import Ascii QArith Qround Qminmax Lqa Lia.

Local Open Scope Q_scope.

(** ** types.ts *)

Inductive Direction := horizontal | vertical.
Inductive Arrowheads := arrow_none | arrow_empty | arrow_solid.

#[global] Instance Direction_eq_dec : EqDecision Direction.
Proof. solve_decision. Defined.
#[global] Instance Arrowheads_eq_dec : EqDecision Arrowheads.
Proof. solve_decision. Defined.

Record LayerConfig := mkLayerConfig {
  layer_id : string;
  neurons : Z
}.

Record VisualSettings := mkVisualSettings {
  edgeColor : string;
  useBezier : bool;
  nodeDiameter : Q;
  nodeColor : string;
  nodeBorderColor : string;
  layerSpacing : Q;
  direction : Direction;
  showBias : bool;
  showLabels : bool;
  arrowheads : Arrowheads;
  weightSeed : Z
}.

Definition DEFAULT_LAYERS : list LayerConfig :=
  [ mkLayerConfig "l1" 18; mkLayerConfig "l2" 12;
    mkLayerConfig "l3" 10; mkLayerConfig "l4" 1 ].

(** [DEFAULT_SETTINGS] has [weightSeed: Date.now()]; the clock reading is
    the argument. *)
Definition DEFAULT_SETTINGS (now : Z) : VisualSettings :=
  {| edgeColor := "#888888"; useBezier := true; nodeDiameter := 20;
     nodeColor := "#ffffff"; nodeBorderColor := "#333333";
     layerSpacing := 200; direction := horizontal; showBias := false;
     showLabels := true; arrowheads := arrow_none; weightSeed := now |}.

(** ** NetworkGraph.tsx: data *)

Record Dimensions := mkDimensions { width : Q; height : Q }.

Record Node := mkNode {
  node_id : string;
  layerIndex : nat;
  neuronIndex : nat;
  pos_x : Q;
  pos_y : Q;
  isBias : bool
}.

Record Link := mkLink {
  link_id : string;
  source : Node;
  target : Node;
  weight : Q
}.

Record Graph := mkGraph { nodes : list Node; links : list Link }.

(** ** JavaScript built-ins used by the source *)

(** [arr.push(x)]. *)
Definition push {A} (arr : list A) (x : A) : list A := arr ++ [x].

(** [arr.forEach((x, i) => ...)] threading the variables the callback
    assigns: the callback sees the element and its index, starting at
    [start]. *)
Fixpoint forEach_from {A St} (f : St → A → nat → St) (start : nat)
    (arr : list A) (st : St) : St :=
  match arr with
  | [] => st
  | a :: arr' => forEach_from f (S start) arr' (f st a start)
  end.

Definition forEach {A St} (f : St → A → nat → St) (arr : list A) (st : St)
    : St :=
  forEach_from f 0 arr st.

(** [for (let i = 0; i < bound; i++) body]: no iteration when [bound <= 0]. *)
Definition for_upto {St} (bound : Z) (body : St → nat → St) (st : St) : St :=
  fold_left body (seq 0 (Z.to_nat bound)) st.

(** The value of [Math.max(...xs)]: [-Infinity] on the empty list. *)
Inductive ExtNum := NegInfinity | Finite (z : Z).

Definition ext_max (a : ExtNum) (z : Z) : ExtNum :=
  match a with
  | NegInfinity => Finite z
  | Finite w => Finite (Z.max w z)
  end.

Definition Math_max (xs : list Z) : ExtNum := fold_left ext_max xs NegInfinity.

(** Template literal [`${layerIdx}-${i}`]. *)
Definition nodeId (layerIdx i : nat) : string :=
  pretty layerIdx +:+ "-" +:+ pretty i.

(** Template literal [`${source.id}->${target.id}`]. *)
Definition linkId (s t : Node) : string :=
  node_id s +:+ "->" +:+ node_id t.

(** ** NetworkGraph.tsx: the [useMemo] body *)

(** The binary64 operations whose results are not exact: the value of
    [Math.sin] at a counter value, and the rounding of the exact result of
    a multiplication or a subtraction to the nearest binary64 number (every
    finite binary64 number is a rational). [Math.floor] of a finite number is
    exact. *)
Record Float64 := mkFloat64 {
  Math_sin : Z → Q;
  round64 : Q → Q
}.

Section LayoutEngine.
Variable fp : Float64.

(** [seededRandom]: the [seed++] only changes the local parameter; the
    product and the difference are rounded. *)
Definition seededRandom (seed : Z) : Q :=
  let x := round64 fp (Math_sin fp seed * 10000) in
  round64 fp (x - inject_Z (Qfloor x)).

Definition effectiveCount (settings : VisualSettings) (len layerIdx : nat)
    (layer : LayerConfig) : Z :=
  let neuronCount := neurons layer in
  if showBias settings && negb (Z.of_nat layerIdx =? Z.of_nat len - 1)%Z
  then (neuronCount + 1)%Z
  else neuronCount.

(** Body of [layers.forEach((layer, layerIdx) => ...)] (lines 78-108). The
    coordinates are computed exactly; see [slider_settings] for the inputs
    on which the source computes the same. *)
Definition layer_body (settings : VisualSettings) (len : nat)
    (isHoriz : bool) (centerX centerY startMainAxis : Q)
    (nodes : list Node) (layer : LayerConfig) (layerIdx : nat) : list Node :=
  let effectiveCount := effectiveCount settings len layerIdx layer in
  let nodeSpacing := nodeDiameter settings * 2.5 in
  let layerHeight := inject_Z (effectiveCount - 1) * nodeSpacing in
  let layerMainPos :=
    startMainAxis + inject_Z (Z.of_nat layerIdx) * layerSpacing settings in
  for_upto effectiveCount (λ nodes i,
    let isBias :=
      showBias settings && negb (Z.of_nat layerIdx =? Z.of_nat len - 1)%Z
      && (Z.of_nat i =? effectiveCount - 1)%Z in
    let layerCrossPos :=
      (if isHoriz then centerY else centerX) - layerHeight / 2
      + inject_Z (Z.of_nat i) * nodeSpacing in
    let x := if isHoriz then layerMainPos else layerCrossPos in
    let y := if isHoriz then layerCrossPos else layerMainPos in
    push nodes {| node_id := nodeId layerIdx i; layerIndex := layerIdx;
                  neuronIndex := i; pos_x := x; pos_y := y;
                  isBias := isBias |}) nodes.

(** Body of [targets.forEach(target => ...)] (lines 114-127); the state is
    the pair of [weightCounter] and [links]. [weightCounter++] is exact
    while the counter is below 2^53. *)
Definition target_body (source : Node) (st : Z * list Link) (target : Node)
    : Z * list Link :=
  let '(weightCounter, links) := st in
  if negb (isBias target) then
    let weight := seededRandom weightCounter in
    ((weightCounter + 1)%Z,
     push links {| link_id := linkId source target; source := source;
                   target := target; weight := weight |})
  else (weightCounter, links).

(** Body of [nodes.forEach(source => ...)] (lines 111-128). *)
Definition source_body (nodes : list Node) (st : Z * list Link)
    (source : Node) : Z * list Link :=
  let targets :=
    filter (λ n, layerIndex n = (layerIndex source + 1)%nat) nodes in
  fold_left (target_body source) targets st.

Definition computeLayout (layers : list LayerConfig)
    (settings : VisualSettings) (dimensions : Dimensions) : Graph :=
  let isHoriz := bool_decide (direction settings = horizontal) in
  let maxNeurons :=
    Math_max (map (λ l, (neurons l + (if showBias settings then 1 else 0))%Z)
                  layers) in
  let layoutLength :=
    inject_Z (Z.of_nat (length layers) - 1) * layerSpacing settings in
  let paddingX : Q := 100 in
  let paddingY : Q := 100 in
  let centerX := width dimensions / 2 in
  let centerY := height dimensions / 2 in
  let startMainAxis :=
    if isHoriz then centerX - layoutLength / 2
    else centerY - layoutLength / 2 in
  let weightCounter := weightSeed settings in
  let nodes :=
    forEach (layer_body settings (length layers) isHoriz centerX centerY
               startMainAxis) layers [] in
  let '(_, links) :=
    fold_left (source_body nodes) nodes (weightCounter, []) in
  {| nodes := nodes; links := links |}.

(** The same computation with the [maxNeurons] line (line 51) deleted. *)
Definition computeLayout_without_maxNeurons (layers : list LayerConfig)
    (settings : VisualSettings) (dimensions : Dimensions) : Graph :=
  let isHoriz := bool_decide (direction settings = horizontal) in
  let layoutLength :=
    inject_Z (Z.of_nat (length layers) - 1) * layerSpacing settings in
  let paddingX : Q := 100 in
  let paddingY : Q := 100 in
  let centerX := width dimensions / 2 in
  let centerY := height dimensions / 2 in
  let startMainAxis :=
    if isHoriz then centerX - layoutLength / 2
    else centerY - layoutLength / 2 in
  let weightCounter := weightSeed settings in
  let nodes :=
    forEach (layer_body settings (length layers) isHoriz centerX centerY
               startMainAxis) layers [] in
  let '(_, links) :=
    fold_left (source_body nodes) nodes (weightCounter, []) in
  {| nodes := nodes; links := links |}.

End LayoutEngine.

(** ** NetworkGraph.tsx: layer labels (lines 150-160 and 233-265) *)

Definition supers : list string :=
  ["⁰"; "¹"; "²"; "³"; "⁴"; "⁵"; "⁶"; "⁷"; "⁸"; "⁹"].

(** [parseInt(d)] on a one-character string: [None] stands for [NaN]. *)
Definition parseInt_char (d : ascii) : option nat :=
  let n := nat_of_ascii d in
  if bool_decide (48 ≤ n ≤ 57)%nat then Some (n - 48)%nat else None.

(** [supers[parseInt(d)]] as [join('')] prints it: [undefined] prints as
    the empty string. *)
Definition superscript_of_char (d : ascii) : string :=
  default "" (parseInt_char d ≫= λ k, supers !! k).

(** [num.toString()] is [pretty num], the decimal digits of an integer
    (with a leading [-] when negative): what JavaScript prints below 10^21. *)
Definition getSuperscript (num : Z) : string :=
  String.concat ""
    (map superscript_of_char (String.list_ascii_of_string (pretty num))).

Definition getLayerLabel (len : nat) (idx : nat) (neuronCount : Z) : string :=
  if bool_decide (idx = 0%nat)
  then "Input Layer ∈ R" +:+ getSuperscript neuronCount
  else if (Z.of_nat idx =? Z.of_nat len - 1)%Z
  then "Output Layer ∈ R" +:+ getSuperscript neuronCount
  else "Hidden Layer ∈ R" +:+ getSuperscript neuronCount.

(** One [<text>] element. *)
Record Label := mkLabel {
  label_key : string;
  label_x : Q;
  label_y : Q;
  label_text : string
}.

(** [Math.max(...qs)] on a non-empty array [q :: qs]. *)
Definition Math_max_Q (q : Q) (qs : list Q) : Q := fold_left Qmax qs q.

(** Callback of [layers.map((layer, idx) => ...)]: [None] is the [null] of
    line 236. The two additions of line 247 (or 250) are exact, as the
    coordinates are. *)
Definition label_of_layer (nodes : list Node) (settings : VisualSettings)
    (len : nat) (idx : nat) (layer : LayerConfig) : option Label :=
  let layerNodes := filter (λ n, layerIndex n = idx) nodes in
  match map pos_x layerNodes, map pos_y layerNodes with
  | x0 :: xs, y0 :: ys =>
      let '(labelX, labelY) :=
        if bool_decide (direction settings = horizontal)
        then (x0, Math_max_Q y0 ys + nodeDiameter settings + 30)
        else (Math_max_Q x0 xs + nodeDiameter settings + 80, y0) in
      Some {| label_key := "label-" +:+ pretty idx;
              label_x := labelX; label_y := labelY;
              label_text := getLayerLabel len idx (neurons layer) |}
  | _, _ => None
  end.

(** [settings.showLabels && layers.map(...)]: [false] renders nothing. *)
Definition renderLabels (nodes : list Node) (layers : list LayerConfig)
    (settings : VisualSettings) : list (option Label) :=
  if showLabels settings
  then imap (label_of_layer nodes settings (length layers)) layers
  else [].

(** ** Sidebar.tsx *)

(** The objects of the [layers] array live in a store; an array is the list
    of the references it holds. *)
Abbreviation ref := positive.
Abbreviation Store := (gmap positive LayerConfig).

(** What a consumer holding the array [layers] reads through it. *)
Definition read_layers (σ : Store) (layers : list ref)
    : option (list LayerConfig) :=
  mapM (λ r, σ !! r) layers.

(** One call [updateSetting(key, value)]: the key with a value of the
    field's type. *)
Inductive SettingUpdate :=
  | Set_edgeColor (v : string)
  | Set_useBezier (v : bool)
  | Set_nodeDiameter (v : Q)
  | Set_nodeColor (v : string)
  | Set_nodeBorderColor (v : string)
  | Set_layerSpacing (v : Q)
  | Set_direction (v : Direction)
  | Set_showBias (v : bool)
  | Set_showLabels (v : bool)
  | Set_arrowheads (v : Arrowheads)
  | Set_weightSeed (v : Z).

(** [{ ...settings, [key]: value }], the argument of [onSettingsChange]. *)
Definition updateSetting (settings : VisualSettings) (u : SettingUpdate)
    : VisualSettings :=
  let '(mkVisualSettings ec ub nd nc nbc ls d sb sl ah ws) := settings in
  match u with
  | Set_edgeColor v => mkVisualSettings v ub nd nc nbc ls d sb sl ah ws
  | Set_useBezier v => mkVisualSettings ec v nd nc nbc ls d sb sl ah ws
  | Set_nodeDiameter v => mkVisualSettings ec ub v nc nbc ls d sb sl ah ws
  | Set_nodeColor v => mkVisualSettings ec ub nd v nbc ls d sb sl ah ws
  | Set_nodeBorderColor v => mkVisualSettings ec ub nd nc v ls d sb sl ah ws
  | Set_layerSpacing v => mkVisualSettings ec ub nd nc nbc v d sb sl ah ws
  | Set_direction v => mkVisualSettings ec ub nd nc nbc ls v sb sl ah ws
  | Set_showBias v => mkVisualSettings ec ub nd nc nbc ls d v sl ah ws
  | Set_showLabels v => mkVisualSettings ec ub nd nc nbc ls d sb v ah ws
  | Set_arrowheads v => mkVisualSettings ec ub nd nc nbc ls d sb sl v ws
  | Set_weightSeed v => mkVisualSettings ec ub nd nc nbc ls d sb sl ah v
  end.

(** [updateLayerNeuron]: [[...layers]] is a new array holding the same
    references; [newLayers[index].neurons = ...] writes the object that
    [layers[index]] references too.  The result is the store after the call
    and the argument of [onLayerChange]; [None] is the [TypeError] of
    assigning to a property of [undefined]. *)
Definition updateLayerNeuron (layers : list ref) (index : nat) (value : Z)
    (σ : Store) : option (Store * list ref) :=
  let newLayers := layers in
  r ← newLayers !! index;
  obj ← σ !! r;
  let σ' :=
    <[r := {| layer_id := layer_id obj;
              neurons := Z.max 1 (Z.min 50 value) |}]> σ in
  Some (σ', newLayers).

(** [removeLayer]: [None] when [onLayerChange] is not called. *)
Definition removeLayer (layers : list ref) (index : nat) : option (list ref) :=
  if bool_decide (length layers ≤ 2)%nat then None
  else
    let newLayers :=
      omap id (imap (λ i r, if bool_decide (i ≠ index) then Some r else None)
                    layers) in
    Some newLayers.

(** [addLayer]: the object literal is a new object of the store; [now] is
    the reading of [Date.now()]. *)
Definition addLayer (layers : list ref) (now : Z) (σ : Store)
    : Store * list ref :=
  let r := fresh (dom σ) in
  let newLayers := layers ++ [r] in
  (<[r := {| layer_id := "l-" +:+ pretty now; neurons := 5 |}]> σ, newLayers).

(** The neuron count that a consumer of the result of an edit reads at
    [index]. *)
Definition neurons_after (res : option (Store * list ref)) (index : nat)
    : option Z :=
  '(σ', newLayers) ← res;
  r ← newLayers !! index;
  obj ← σ' !! r;
  Some (neurons obj).

(** The store and the array of the host after module initialisation:
    [useState(DEFAULT_LAYERS)]. *)
Definition initial_store : Store :=
  list_to_map (zip [1; 2; 3; 4]%positive DEFAULT_LAYERS).
Definition initial_layers : list ref := [1; 2; 3; 4]%positive.

(** ** Vocabulary of the statements *)

(** The object literal pushed at line 99, as a function of the loop
    variables. *)
Definition node_at (settings : VisualSettings) (len : nat) (isHoriz : bool)
    (centerX centerY startMainAxis : Q) (layerIdx : nat) (layer : LayerConfig)
    (i : nat) : Node :=
  let effectiveCount := effectiveCount settings len layerIdx layer in
  let nodeSpacing := nodeDiameter settings * 2.5 in
  let layerHeight := inject_Z (effectiveCount - 1) * nodeSpacing in
  let layerMainPos :=
    startMainAxis + inject_Z (Z.of_nat layerIdx) * layerSpacing settings in
  let isBias :=
    showBias settings && negb (Z.of_nat layerIdx =? Z.of_nat len - 1)%Z
    && (Z.of_nat i =? effectiveCount - 1)%Z in
  let layerCrossPos :=
    (if isHoriz then centerY else centerX) - layerHeight / 2
    + inject_Z (Z.of_nat i) * nodeSpacing in
  {| node_id := nodeId layerIdx i; layerIndex := layerIdx; neuronIndex := i;
     pos_x := if isHoriz then layerMainPos else layerCrossPos;
     pos_y := if isHoriz then layerCrossPos else layerMainPos;
     isBias := isBias |}.

(** The nodes one iteration of the layer loop pushes. *)
Definition layer_nodes (settings : VisualSettings) (len : nat) (isHoriz : bool)
    (centerX centerY startMainAxis : Q) (layerIdx : nat) (layer : LayerConfig)
    : list Node :=
  map (node_at settings len isHoriz centerX centerY startMainAxis layerIdx layer)
      (seq 0 (Z.to_nat (effectiveCount settings len layerIdx layer))).

(** The nodes of layer [idx] in a node list, in list order. *)
Definition nodes_of_layer (idx : nat) (nodes : list Node) : list Node :=
  filter (λ n, layerIndex n = idx) nodes.

(** The sum over the layers of [effectiveCount]. *)
Definition total_effectiveCount (settings : VisualSettings)
    (layers : list LayerConfig) : Z :=
  foldr Z.add 0%Z (imap (effectiveCount settings (length layers)) layers).

(** The (source, target) pairs in the order the two link loops visit those
    that get a link. *)
Definition link_pairs (nodes : list Node) : list (Node * Node) :=
  s ← nodes;
  t ← filter (λ n, layerIndex n = (layerIndex s + 1)%nat) nodes;
  if negb (isBias t) then [(s, t)] else [].

(** The object literal pushed at line 120 for the [k]-th link after the
    counter was [counter]. *)
Definition link_at (fp : Float64) (counter : Z) (k : nat)
    (p : Node * Node) : Link :=
  {| link_id := linkId p.1 p.2; source := p.1; target := p.2;
     weight := seededRandom fp (counter + Z.of_nat k) |}.

#[global] Instance Q_eq_dec : EqDecision Q.
Proof. solve_decision. Defined.
#[global] Instance Node_eq_dec : EqDecision Node.
Proof. solve_decision. Defined.

(** The links with source [s] and target [t], and those with target [t]. *)
Definition links_between (s t : Node) (links : list Link) : list Link :=
  filter (λ l, source l = s ∧ target l = t) links.
Definition links_into (t : Node) (links : list Link) : list Link :=
  filter (λ l, target l = t) links.

(** What the link loops read of a node, and the number of links they push
    as a function of that alone. *)
Definition skeleton (n : Node) : nat * bool := (layerIndex n, isBias n).
Definition link_count (sk : list (nat * bool)) : nat :=
  sum_list ((λ p, length (filter (λ q, q.1 = (p.1 + 1)%nat ∧ q.2 = false) sk))
            <$> sk).

(** The coordinate of a node along the axis the layers are spread on, and
    the viewport centre on that axis. *)
Definition mainCoord (settings : VisualSettings) (n : Node) : Q :=
  if bool_decide (direction settings = horizontal) then pos_x n else pos_y n.
Definition mainCenter (settings : VisualSettings) (dimensions : Dimensions)
    : Q :=
  if bool_decide (direction settings = horizontal)
  then width dimensions / 2 else height dimensions / 2.
Definition layoutExtent (layers : list LayerConfig) (settings : VisualSettings)
    : Q :=
  inject_Z (Z.of_nat (length layers) - 1) * layerSpacing settings.

(** The position of layer [k] on the main axis as the specification gives
    it: centre, minus half the extent, plus [k] spacings. *)
Definition layerMainPos (layers : list LayerConfig) (settings : VisualSettings)
    (dimensions : Dimensions) (k : nat) : Q :=
  mainCenter settings dimensions - layoutExtent layers settings / 2
  + inject_Z (Z.of_nat k) * layerSpacing settings.

(** Validity of a layer list in the data model: every neuron count is at
    least [lo]. *)
Definition neurons_ge (lo : Z) (layers : list LayerConfig) : Prop :=
  Forall (λ l, (lo ≤ neurons l)%Z) layers.

(** The inputs the application hands to the layout. [nodeDiameter] and
    [layerSpacing] are those of [DEFAULT_SETTINGS] or the [parseInt] of a
    range input of [Sidebar.tsx] (5 to 50, and 50 to 400); the viewport is
    [clientWidth] by [clientHeight], two whole numbers of pixels; the neuron
    counts are the defaults or what [updateLayerNeuron] stores; an array has
    fewer than 2^32 elements. On these inputs every value that lines 55-68,
    87-94 and 247-251 compute is a multiple of 1/4 below 2^43 in magnitude, so
    every binary64 operation there is exact and the rational arithmetic of
    [layer_body] and [label_of_layer] is the arithmetic of the code (proved
    below against [node_pos64] and [label_pos64], which round every
    operation). The statements about coordinates are made for these
    inputs. *)
Definition whole_between (lo hi : Z) (q : Q) : Prop :=
  ∃ z : Z, q == inject_Z z ∧ (lo ≤ z ≤ hi)%Z.
Definition slider_settings (settings : VisualSettings) : Prop :=
  whole_between 5 50 (nodeDiameter settings)
  ∧ whole_between 50 400 (layerSpacing settings).
Definition pixel_viewport (dimensions : Dimensions) : Prop :=
  whole_between 0 2147483647 (width dimensions)
  ∧ whole_between 0 2147483647 (height dimensions).
Definition array_length_ok (layers : list LayerConfig) : Prop :=
  (Z.of_nat (length layers) < 2 ^ 32)%Z.
Definition valid_counts (layers : list LayerConfig) : Prop :=
  Forall (λ l, (1 ≤ neurons l ≤ 50)%Z) layers.

(** Every character of a string satisfies [P]. *)
Fixpoint string_all (P : ascii → Prop) (s : string) : Prop :=
  match s with
  | EmptyString => True
  | String c s' => P c ∧ string_all P s'
  end.

Definition is_digit (c : ascii) : Prop := (48 ≤ nat_of_ascii c ≤ 57)%nat.

(** What identifies a node in a layout. *)
Definition node_key (n : Node) : nat * nat := (layerIndex n, neuronIndex n).

(** Stand-ins for the binary64 operations, to evaluate the definitions on
    concrete inputs: a linear function for [Math.sin] and a rounding that
    changes nothing. No statement depends on their values. *)
Definition sample_fp : Float64 :=
  {| Math_sin := λ z, inject_Z z / 7; round64 := λ q, q |}.

Definition sample_dimensions : Dimensions := {| width := 800; height := 600 |}.

(** The layout of the default layers with the default settings, the first
    two nodes of its layer 0 and the first node of its layer 1. *)
Definition sample_graph : Graph :=
  computeLayout sample_fp DEFAULT_LAYERS (DEFAULT_SETTINGS 0)
    sample_dimensions.
Definition origin_node : Node :=
  {| node_id := ""; layerIndex := 0; neuronIndex := 0;
     pos_x := 0; pos_y := 0; isBias := false |}.
Definition sample_node_0_0 : Node :=
  Eval vm_compute in default origin_node (nodes sample_graph !! 0%nat).
Definition sample_node_0_1 : Node :=
  Eval vm_compute in default origin_node (nodes sample_graph !! 1%nat).
Definition sample_node_1_0 : Node :=
  Eval vm_compute in default origin_node (nodes sample_graph !! 18%nat).

(** ** Further vocabulary *)

(** The coordinate of a node along the axis the nodes of one layer are
    spread on, the viewport centre on that axis, and the distance between
    two neighbours in a layer (line 87). *)
Definition crossCoord (settings : VisualSettings) (n : Node) : Q :=
  if bool_decide (direction settings = horizontal) then pos_y n else pos_x n.
Definition crossCenter (settings : VisualSettings) (dimensions : Dimensions)
    : Q :=
  if bool_decide (direction settings = horizontal)
  then height dimensions / 2 else width dimensions / 2.
Definition nodeSpacing (settings : VisualSettings) : Q :=
  nodeDiameter settings * 2.5.

(** A node with its two coordinates exchanged; a viewport with its two
    sides exchanged. *)
Definition transpose (n : Node) : Node :=
  {| node_id := node_id n; layerIndex := layerIndex n;
     neuronIndex := neuronIndex n; pos_x := pos_y n; pos_y := pos_x n;
     isBias := isBias n |}.
Definition flip (dimensions : Dimensions) : Dimensions :=
  {| width := height dimensions; height := width dimensions |}.

(** The settings that [computeLayout] never reads. *)
Definition is_cosmetic (u : SettingUpdate) : bool :=
  match u with
  | Set_edgeColor _ | Set_useBezier _ | Set_nodeColor _
  | Set_nodeBorderColor _ | Set_showLabels _ | Set_arrowheads _ => true
  | _ => false
  end.

(** The node that [computeLayout] pushes for neuron [i] of layer [idx]. *)
Definition graph_node_at (layers : list LayerConfig)
    (settings : VisualSettings) (dimensions : Dimensions) (idx : nat)
    (layer : LayerConfig) (i : nat) : Node :=
  node_at settings (length layers)
    (bool_decide (direction settings = horizontal))
    (width dimensions / 2) (height dimensions / 2)
    (if bool_decide (direction settings = horizontal)
     then width dimensions / 2 - layoutExtent layers settings / 2
     else height dimensions / 2 - layoutExtent layers settings / 2)
    idx layer i.

(** A link between the transposed nodes. *)
Definition transpose_link (l : Link) : Link :=
  {| link_id := link_id l; source := transpose (source l);
     target := transpose (target l); weight := weight l |}.

(** [m] is the node [n] moved by [(a, b)]. *)
Definition shifted (a b : Q) (n m : Node) : Prop :=
  node_id m = node_id n ∧ layerIndex m = layerIndex n
  ∧ neuronIndex m = neuronIndex n ∧ isBias m = isBias n
  ∧ pos_x m == pos_x n + a ∧ pos_y m == pos_y n + b.

(** The number of non-bias nodes of layer [j] in a node list. *)
Definition nonbias_in_layer (nodes : list Node) (j : nat) : nat :=
  length (filter (λ n, layerIndex n = j ∧ isBias n = false) nodes).

(** ** The host: App (with [types.ts]) and the events of the sidebar *)

(** [neurons = Math.max(1, Math.min(50, value))] on one layer object. *)
Definition set_neurons (value : Z) (obj : LayerConfig) : LayerConfig :=
  {| layer_id := layer_id obj; neurons := Z.max 1 (Z.min 50 value) |}.

(** Two updates name the same field of [VisualSettings]. *)
Definition same_field (u1 u2 : SettingUpdate) : bool :=
  match u1, u2 with
  | Set_edgeColor _, Set_edgeColor _ | Set_useBezier _, Set_useBezier _
  | Set_nodeDiameter _, Set_nodeDiameter _ | Set_nodeColor _, Set_nodeColor _
  | Set_nodeBorderColor _, Set_nodeBorderColor _
  | Set_layerSpacing _, Set_layerSpacing _ | Set_direction _, Set_direction _
  | Set_showBias _, Set_showBias _ | Set_showLabels _, Set_showLabels _
  | Set_arrowheads _, Set_arrowheads _ | Set_weightSeed _, Set_weightSeed _ =>
      true
  | _, _ => false
  end.

(** The two [useState] cells of [App], with the store their objects live
    in. *)
Record AppState := mkAppState {
  app_store : Store;
  app_layers : list ref;
  app_settings : VisualSettings
}.

(** What the sidebar can ask for: the four handlers, with the arguments the
    widgets pass ([now] is the reading of [Date.now()]). *)
Inductive Event :=
  | EvUpdateSetting (u : SettingUpdate)
  | EvUpdateLayerNeuron (index : nat) (value : Z)
  | EvRemoveLayer (index : nat)
  | EvAddLayer (now : Z).

(** One handler call followed by the [setLayers] or [setSettings] it makes.
    A handler that returns early or throws leaves the two cells as they
    are. *)
Definition step (st : AppState) (ev : Event) : AppState :=
  match ev with
  | EvUpdateSetting u =>
      {| app_store := app_store st; app_layers := app_layers st;
         app_settings := updateSetting (app_settings st) u |}
  | EvUpdateLayerNeuron index value =>
      match updateLayerNeuron (app_layers st) index value (app_store st) with
      | Some (σ', newLayers) =>
          {| app_store := σ'; app_layers := newLayers;
             app_settings := app_settings st |}
      | None => st
      end
  | EvRemoveLayer index =>
      match removeLayer (app_layers st) index with
      | Some newLayers =>
          {| app_store := app_store st; app_layers := newLayers;
             app_settings := app_settings st |}
      | None => st
      end
  | EvAddLayer now =>
      let '(σ', newLayers) := addLayer (app_layers st) now (app_store st) in
      {| app_store := σ'; app_layers := newLayers;
         app_settings := app_settings st |}
  end.

Definition run (events : list Event) (st : AppState) : AppState :=
  fold_left step events st.

(** [useState(DEFAULT_LAYERS)], [useState(DEFAULT_SETTINGS)]. *)
Definition initial_state (now : Z) : AppState :=
  {| app_store := initial_store; app_layers := initial_layers;
     app_settings := DEFAULT_SETTINGS now |}.

(** The [layers] prop that [NetworkGraph] and [Sidebar] receive. *)
Definition layers_prop (st : AppState) : option (list LayerConfig) :=
  read_layers (app_store st) (app_layers st).

(** The invariant of the host state: at least two layers, no object twice
    in the array, every reference to an object of the store whose neuron
    count is within [1, 50]. *)
Definition state_ok (st : AppState) : Prop :=
  NoDup (app_layers st)
  ∧ (2 ≤ length (app_layers st))%nat
  ∧ Forall (λ r, ∃ obj, app_store st !! r = Some obj
                        ∧ (1 ≤ neurons obj ≤ 50)%Z)
           (app_layers st).

(** The clock readings of the [addLayer] calls among the events. *)
Definition add_times (events : list Event) : list Z :=
  omap (λ ev, match ev with EvAddLayer now => Some now | _ => None end) events.

(** The [id] of the object behind a reference, and the identifiers a layer
    can have after the clock readings [used]: one of the default layers' or
    ["l-" + now] for a reading [now] of [used]. *)
Definition layer_id_at (σ : Store) (r : ref) : option string :=
  layer_id <$> σ !! r.
Definition known_id (used : list Z) (s : string) : Prop :=
  s ∈ (layer_id <$> DEFAULT_LAYERS) ∨ ∃ n, n ∈ used ∧ s = "l-" +:+ pretty n.
Definition ids_ok (used : list Z) (st : AppState) : Prop :=
  NoDup (layer_id_at (app_store st) <$> app_layers st)
  ∧ Forall (λ r, ∃ obj, app_store st !! r = Some obj
                        ∧ known_id used (layer_id obj))
           (app_layers st).

(** ** The coordinates with every operation rounded

    Lines 55-68 and 87-94 once more, for neuron [i] of layer [layerIdx], and
    lines 247-251 for a label, with the result of every operation on
    coordinates rounded as binary64 arithmetic rounds it ([layers.length - 1],
    [effectiveCount - 1] and the loop variables are small integers and
    exact). [quarter_exact] is the one fact about the rounding that is used:
    a multiple of 1/4 of magnitude at most 2^51 is a binary64 number. *)
Definition quarter_exact (fp : Float64) : Prop :=
  ∀ (q : Q) (z : Z),
    q == inject_Z z / 4 → (- 2 ^ 53 ≤ z ≤ 2 ^ 53)%Z → round64 fp q == q.

Definition node_pos64 (fp : Float64) (layers : list LayerConfig)
    (settings : VisualSettings) (dimensions : Dimensions) (layerIdx : nat)
    (layer : LayerConfig) (i : nat) : Q * Q :=
  let fl := round64 fp in
  let isHoriz := bool_decide (direction settings = horizontal) in
  let layoutLength :=
    fl (inject_Z (Z.of_nat (length layers) - 1) * layerSpacing settings) in
  let centerX := fl (width dimensions / 2) in
  let centerY := fl (height dimensions / 2) in
  let startMainAxis :=
    if isHoriz then fl (centerX - fl (layoutLength / 2))
    else fl (centerY - fl (layoutLength / 2)) in
  let effectiveCount := effectiveCount settings (length layers) layerIdx layer in
  let nodeSpacing := fl (nodeDiameter settings * 2.5) in
  let layerHeight := fl (inject_Z (effectiveCount - 1) * nodeSpacing) in
  let layerMainPos :=
    fl (startMainAxis
        + fl (inject_Z (Z.of_nat layerIdx) * layerSpacing settings)) in
  let layerCrossPos :=
    fl (fl ((if isHoriz then centerY else centerX) - fl (layerHeight / 2))
        + fl (inject_Z (Z.of_nat i) * nodeSpacing)) in
  (if isHoriz then layerMainPos else layerCrossPos,
   if isHoriz then layerCrossPos else layerMainPos).

Definition label_pos64 (fp : Float64) (nodes : list Node)
    (settings : VisualSettings) (idx : nat) : option (Q * Q) :=
  let fl := round64 fp in
  let layerNodes := filter (λ n, layerIndex n = idx) nodes in
  match map pos_x layerNodes, map pos_y layerNodes with
  | x0 :: xs, y0 :: ys =>
      Some (if bool_decide (direction settings = horizontal)
            then (x0, fl (fl (Math_max_Q y0 ys + nodeDiameter settings) + 30))
            else (fl (fl (Math_max_Q x0 xs + nodeDiameter settings) + 80), y0))
  | _, _ => None
  end.

(** A multiple of 1/4 between [-2^45/4] and [2^45/4]. *)
Definition quarter_pixels (q : Q) : Prop :=
  ∃ z : Z, q == inject_Z z / 4 ∧ (- 2 ^ 45 ≤ z ≤ 2 ^ 45)%Z.

(** * Properties *)

(** ** Loops that only push *)

Lemma fold_left_push {A B} (f : B → A) (l : list B) (acc : list A) :
  fold_left (λ acc i, push acc (f i)) l acc = acc ++ map f l.
Proof.
  revert acc. induction l as [|b l IH]; intros acc; simpl.
  - by rewrite app_nil_r.
  - rewrite IH. unfold push. by rewrite <-app_assoc.
Qed.

Section NodeLoop.
Variables (settings : VisualSettings) (len : nat) (isHoriz : bool).
Variables (centerX centerY startMainAxis : Q).

Local Abbreviation body :=
  (layer_body settings len isHoriz centerX centerY startMainAxis).
Local Abbreviation lnodes :=
  (layer_nodes settings len isHoriz centerX centerY startMainAxis).

Lemma layer_body_spec (acc : list Node) (layer : LayerConfig) (idx : nat) :
  body acc layer idx = acc ++ lnodes idx layer.
Proof.
  unfold layer_body, for_upto, layer_nodes.
  apply (fold_left_push
    (node_at settings len isHoriz centerX centerY startMainAxis idx layer)).
Qed.

Lemma forEach_from_layer_body (layers : list LayerConfig) (start : nat)
    (acc : list Node) :
  forEach_from body start layers acc
  = acc ++ concat (imap (λ i l, lnodes (start + i) l) layers).
Proof.
  revert start acc. induction layers as [|l layers IH]; intros start acc.
  - simpl. by rewrite app_nil_r.
  - cbn [forEach_from imap concat]. rewrite IH, layer_body_spec.
    rewrite <-app_assoc, Nat.add_0_r. do 3 f_equal.
    apply imap_ext. intros i x _. simpl. by rewrite Nat.add_succ_r.
Qed.

Lemma layer_nodes_layerIndex (idx : nat) (layer : LayerConfig) (n : Node) :
  n ∈ lnodes idx layer → layerIndex n = idx.
Proof.
  unfold layer_nodes. intros (i & -> & _)%list_elem_of_fmap. done.
Qed.

Lemma layer_nodes_length (idx : nat) (layer : LayerConfig) :
  length (lnodes idx layer) = Z.to_nat (effectiveCount settings len idx layer).
Proof. unfold layer_nodes. by rewrite length_map, length_seq. Qed.

End NodeLoop.

(** ** The link loops *)

Section LinkLoop.
Variable fp : Float64.

Lemma link_at_shift (c : Z) (n k : nat) (p : Node * Node) :
  link_at fp c (n + k) p = link_at fp (c + Z.of_nat n) k p.
Proof. unfold link_at. do 2 f_equal. lia. Qed.

Lemma fold_left_target_body (s : Node) (ts : list Node) (c : Z)
    (ls : list Link) :
  let ps := t ← ts; if negb (isBias t) then [(s, t)] else [] in
  fold_left (target_body fp s) ts (c, ls)
  = ((c + Z.of_nat (length ps))%Z, ls ++ imap (link_at fp c) ps).
Proof.
  revert c ls. induction ts as [|t ts IH]; intros c ls; cbn zeta.
  - simpl. by rewrite Z.add_0_r, app_nil_r.
  - cbn [fold_left]. rewrite bind_cons. unfold target_body at 2.
    destruct (isBias t); cbn [negb].
    + rewrite IH. done.
    + rewrite IH. cbn [app imap length]. unfold push.
      rewrite <-app_assoc. cbn [app]. f_equal; [lia|].
      do 2 f_equal.
      * unfold link_at. by rewrite Z.add_0_r.
      * apply imap_ext. intros k p _. cbn.
        by rewrite <-(link_at_shift c 1 k).
Qed.

Lemma fold_left_source_body (nodes srcs : list Node) (c : Z)
    (ls : list Link) :
  let ps :=
    s ← srcs;
    t ← filter (λ n, layerIndex n = (layerIndex s + 1)%nat) nodes;
    if negb (isBias t) then [(s, t)] else [] in
  fold_left (source_body fp nodes) srcs (c, ls)
  = ((c + Z.of_nat (length ps))%Z, ls ++ imap (link_at fp c) ps).
Proof.
  revert c ls. induction srcs as [|s srcs IH]; intros c ls; cbn zeta.
  - simpl. by rewrite Z.add_0_r, app_nil_r.
  - cbn [fold_left]. rewrite bind_cons. unfold source_body at 2.
    rewrite fold_left_target_body. cbn zeta. rewrite IH.
    rewrite length_app, imap_app, <-app_assoc. f_equal; [lia|].
    do 2 f_equal. apply imap_ext. intros k p _.
    by rewrite link_at_shift.
Qed.

End LinkLoop.

(** ** The two components of [computeLayout] *)

Section Engine.
Variable fp : Float64.
Variables (layers : list LayerConfig) (settings : VisualSettings).
Variable dimensions : Dimensions.

Local Abbreviation graph := (computeLayout fp layers settings dimensions).
Local Abbreviation isHoriz := (bool_decide (direction settings = horizontal)).
Local Abbreviation startMainAxis :=
  (if isHoriz
   then width dimensions / 2 - layoutExtent layers settings / 2
   else height dimensions / 2 - layoutExtent layers settings / 2).
Local Abbreviation lnodes :=
  (layer_nodes settings (length layers) isHoriz (width dimensions / 2)
     (height dimensions / 2) startMainAxis).

Lemma computeLayout_nodes : nodes graph = concat (imap lnodes layers).
Proof.
  unfold computeLayout. cbv zeta.
  destruct (fold_left _ _ _) as [c ls]. cbn [nodes].
  unfold forEach. rewrite forEach_from_layer_body. done.
Qed.

Lemma computeLayout_links :
  links graph
  = imap (link_at fp (weightSeed settings)) (link_pairs (nodes graph)).
Proof.
  unfold computeLayout. cbv zeta.
  rewrite fold_left_source_body. cbn zeta. done.
Qed.

End Engine.

(** ** Node layers *)

Lemma filter_all {A} (P : A → Prop) `{∀ x, Decision (P x)} (l : list A) :
  (∀ x, x ∈ l → P x) → filter P l = l.
Proof.
  induction l as [|a l IH]; intros Hl; [done|].
  rewrite filter_cons_True by (apply Hl; left).
  f_equal. apply IH. intros x Hx. apply Hl. by right.
Qed.

Lemma filter_none {A} (P : A → Prop) `{∀ x, Decision (P x)} (l : list A) :
  (∀ x, x ∈ l → ¬ P x) → filter P l = [].
Proof.
  induction l as [|a l IH]; intros Hl; [done|].
  rewrite filter_cons_False by (apply Hl; left).
  apply IH. intros x Hx. apply Hl. by right.
Qed.

Lemma imap_layer_bounds (f : nat → LayerConfig → list Node) (start : nat)
    (layers : list LayerConfig) (n : Node) :
  (∀ i l m, m ∈ f i l → layerIndex m = (start + i)%nat) →
  n ∈ concat (imap f layers) →
  (start ≤ layerIndex n < start + length layers)%nat.
Proof.
  revert f start. induction layers as [|l layers IH]; intros f start Hf.
  - simpl. by intros ?%elem_of_nil.
  - cbn [imap concat length]. intros [Hn|Hn]%elem_of_app.
    + apply Hf in Hn. lia.
    + apply (IH _ (S start)) in Hn; [lia|].
      intros i l' m Hm. apply Hf in Hm. lia.
Qed.

Lemma filter_layer_concat (f : nat → LayerConfig → list Node) (start : nat)
    (layers : list LayerConfig) (idx : nat) :
  (∀ i l m, m ∈ f i l → layerIndex m = (start + i)%nat) →
  filter (λ n, layerIndex n = (start + idx)%nat) (concat (imap f layers))
  = default [] (f idx <$> layers !! idx).
Proof.
  revert f start idx. induction layers as [|l layers IH]; intros f start idx Hf.
  - done.
  - cbn [imap concat]. rewrite filter_app.
    assert (Hrest : ∀ i l' m, m ∈ (f ∘ S) i l' →
                     layerIndex m = (S start + i)%nat).
    { intros i l' m Hm. apply Hf in Hm. lia. }
    destruct idx as [|idx]; cbn [lookup list_lookup fmap option_fmap option_map
                                 default].
    + rewrite (filter_none _ (concat _)).
      * rewrite app_nil_r. apply filter_all. intros m Hm%Hf. lia.
      * intros m Hin Hm. apply (imap_layer_bounds _ (S start)) in Hin; [lia|].
        done.
    + rewrite (filter_none _ (f 0%nat l)).
      * cbn [app]. replace (start + S idx)%nat with (S start + idx)%nat by lia.
        by rewrite (IH _ (S start) idx).
      * intros m Hin%Hf Hm. lia.
Qed.

Lemma length_concat_imap (f : nat → LayerConfig → list Node)
    (g : nat → LayerConfig → Z) (layers : list LayerConfig) :
  (∀ i l, layers !! i = Some l → Z.of_nat (length (f i l)) = g i l) →
  Z.of_nat (length (concat (imap f layers))) = foldr Z.add 0%Z (imap g layers).
Proof.
  revert f g. induction layers as [|l layers IH]; intros f g Hfg; [done|].
  cbn [imap concat foldr]. rewrite length_app, Nat2Z.inj_add.
  rewrite (Hfg 0%nat l eq_refl). f_equal.
  apply IH. intros i l' Hl'. by apply (Hfg (S i)).
Qed.

Lemma effectiveCount_nonneg (settings : VisualSettings) (len idx : nat)
    (layer : LayerConfig) :
  (0 ≤ neurons layer)%Z → (0 ≤ effectiveCount settings len idx layer)%Z.
Proof. unfold effectiveCount. case_match; lia. Qed.

Lemma effectiveCount_ge_neurons (settings : VisualSettings) (len idx : nat)
    (layer : LayerConfig) :
  (neurons layer ≤ effectiveCount settings len idx layer)%Z.
Proof. unfold effectiveCount. case_match; lia. Qed.

Lemma updateSetting_showBias (settings : VisualSettings) (b : bool) :
  showBias (updateSetting settings (Set_showBias b)) = b.
Proof. by destruct settings. Qed.

Lemma foldr_add_succ (layers : list LayerConfig) :
  foldr Z.add 0%Z (map (λ l, (neurons l + 1)%Z) layers)
  = (foldr Z.add 0%Z (map neurons layers) + Z.of_nat (length layers))%Z.
Proof. induction layers as [|l layers IH]; cbn; lia. Qed.

Lemma total_effectiveCount_false (settings : VisualSettings)
    (layers : list LayerConfig) :
  showBias settings = false →
  total_effectiveCount settings layers = foldr Z.add 0%Z (map neurons layers).
Proof.
  intros Hb. unfold total_effectiveCount. f_equal.
  rewrite <-(imap_const neurons). apply imap_ext. intros i l _.
  unfold effectiveCount. by rewrite Hb.
Qed.

Lemma foldr_add_base (zs : list Z) (a : Z) :
  foldr Z.add a zs = (foldr Z.add 0%Z zs + a)%Z.
Proof. induction zs as [|z zs IH]; cbn; lia. Qed.

Lemma total_effectiveCount_true (settings : VisualSettings)
    (layers : list LayerConfig) :
  showBias settings = true →
  total_effectiveCount settings layers
  = (foldr Z.add 0%Z (map neurons layers) + Z.of_nat (length layers - 1))%Z.
Proof.
  intros Hb. unfold total_effectiveCount.
  destruct (decide (layers = [])) as [->|Hne]; [done|].
  destruct (exists_last Hne) as (init & lst & ->).
  rewrite length_app, imap_app, !map_app, !foldr_app.
  cbn [length imap foldr map].
  rewrite (imap_ext _ (const (λ l, (neurons l + 1)%Z)) init).
  - rewrite imap_const.
    unfold effectiveCount at 1. rewrite Hb.
    replace (Z.of_nat (length init + 0) =? Z.of_nat (length init + 1) - 1)%Z
      with true by (symmetry; apply Z.eqb_eq; lia).
    cbn [negb andb].
    rewrite (foldr_add_base (map _ init)), (foldr_add_base (map neurons init)).
    rewrite foldr_add_succ. lia.
  - intros i l Hl%lookup_lt_Some. unfold effectiveCount. rewrite Hb.
    replace (Z.of_nat i =? Z.of_nat (length init + 1) - 1)%Z
      with false by (symmetry; apply Z.eqb_neq; lia).
    done.
Qed.

Section NodeFacts.
Variable fp : Float64.
Variables (layers : list LayerConfig) (settings : VisualSettings).
Variable dimensions : Dimensions.

Local Abbreviation graph := (computeLayout fp layers settings dimensions).

Lemma nodes_of_layer_computeLayout (idx : nat) (layer : LayerConfig) :
  layers !! idx = Some layer →
  nodes_of_layer idx (nodes graph)
  = layer_nodes settings (length layers)
      (bool_decide (direction settings = horizontal))
      (width dimensions / 2) (height dimensions / 2)
      (if bool_decide (direction settings = horizontal)
       then width dimensions / 2 - layoutExtent layers settings / 2
       else height dimensions / 2 - layoutExtent layers settings / 2)
      idx layer.
Proof.
  intros Hl. unfold nodes_of_layer. rewrite computeLayout_nodes.
  rewrite (filter_layer_concat _ 0 layers idx), Hl; [done|].
  intros i l m Hm. by apply layer_nodes_layerIndex in Hm.
Qed.

Lemma elem_of_nodes (n : Node) :
  n ∈ nodes graph →
  ∃ layer, layers !! layerIndex n = Some layer
           ∧ n ∈ nodes_of_layer (layerIndex n) (nodes graph).
Proof.
  intros Hn.
  assert (layerIndex n < length layers)%nat as Hlt.
  { rewrite computeLayout_nodes in Hn.
    apply (imap_layer_bounds _ 0) in Hn; [lia|].
    intros i l m Hm. by apply layer_nodes_layerIndex in Hm. }
  apply lookup_lt_is_Some_2 in Hlt as [layer Hl]. exists layer.
  split; [done|]. unfold nodes_of_layer. by apply list_elem_of_filter.
Qed.

Lemma length_nodes :
  neurons_ge 0 layers →
  Z.of_nat (length (nodes graph)) = total_effectiveCount settings layers.
Proof.
  intros Hvalid. rewrite computeLayout_nodes. unfold total_effectiveCount.
  apply length_concat_imap. intros i l Hl.
  rewrite layer_nodes_length, Z2Nat.id; [done|].
  apply effectiveCount_nonneg.
  eapply (proj1 (Forall_forall _ _) Hvalid), list_elem_of_lookup_2, Hl.
Qed.

End NodeFacts.

(** ** Claims about the node list *)

(** C1. For a layer list whose neuron counts are not negative, the layout
    has as many nodes as the sum over the layers of [effectiveCount]; in a
    layer that gets a bias node (bias shown, not the last layer) the nodes
    of the layer are the [neurons] ordinary nodes followed by the bias node,
    which is the last one; a bias node occurs only in such a layer; and
    switching [showBias] from false to true adds one node for each layer but
    the last. *)
Theorem node_count_is_sum_of_effectiveCount (fp : Float64)
    (layers : list LayerConfig) (settings : VisualSettings)
    (dimensions : Dimensions) :
  neurons_ge 0 layers →
  let graph := computeLayout fp layers settings dimensions in
  Z.of_nat (length (nodes graph)) = total_effectiveCount settings layers
  ∧ (∀ idx layer,
       effectiveCount settings (length layers) idx layer
       = if showBias settings
            && bool_decide (Z.of_nat idx ≠ Z.of_nat (length layers) - 1)%Z
         then (neurons layer + 1)%Z else neurons layer)
  ∧ (∀ idx layer,
       layers !! idx = Some layer →
       showBias settings = true →
       (Z.of_nat idx ≠ Z.of_nat (length layers) - 1)%Z →
       ∃ pre b,
         nodes_of_layer idx (nodes graph) = pre ++ [b]
         ∧ isBias b = true
         ∧ Forall (λ n, isBias n = false) pre
         ∧ length pre = Z.to_nat (neurons layer))
  ∧ (∀ n, n ∈ nodes graph → isBias n = true →
       showBias settings = true
       ∧ (Z.of_nat (layerIndex n) ≠ Z.of_nat (length layers) - 1)%Z)
  ∧ (showBias settings = false →
       length (nodes (computeLayout fp layers
                        (updateSetting settings (Set_showBias true))
                        dimensions))
       = (length (nodes graph) + (length layers - 1))%nat).
Proof.
  intros Hvalid graph. subst graph.
  refine (conj _ (conj _ (conj _ (conj _ _)))).
  - by apply length_nodes.
  - intros idx layer. unfold effectiveCount.
    destruct (showBias settings); [|done]. cbn [andb].
    case_bool_decide as Hd; destruct (Z.eqb_spec (Z.of_nat idx)
      (Z.of_nat (length layers) - 1)); done.
  - intros idx layer Hl Hb Hnl.
    assert (0 ≤ neurons layer)%Z as Hn.
    { eapply (proj1 (Forall_forall _ _) Hvalid), list_elem_of_lookup_2, Hl. }
    rewrite (nodes_of_layer_computeLayout _ _ _ _ _ _ Hl).
    unfold layer_nodes.
    assert (effectiveCount settings (length layers) idx layer
            = (neurons layer + 1)%Z) as Heff.
    { unfold effectiveCount. rewrite Hb.
      by destruct (Z.eqb_spec (Z.of_nat idx) (Z.of_nat (length layers) - 1)). }
    rewrite Heff.
    replace (Z.to_nat (neurons layer + 1)) with (S (Z.to_nat (neurons layer)))
      by lia.
    rewrite seq_S, map_app. cbn [map Nat.add].
    eexists _, _. split; [reflexivity|].
    refine (conj _ (conj _ _)).
    + unfold node_at. cbn [isBias]. rewrite Hb, Heff.
      destruct (Z.eqb_spec (Z.of_nat idx) (Z.of_nat (length layers) - 1));
        [done|]. cbn [negb andb]. apply Z.eqb_eq. lia.
    + apply Forall_forall. intros n (i & -> & Hi%elem_of_seq)%list_elem_of_fmap.
      unfold node_at. cbn [isBias]. rewrite Heff.
      replace (Z.of_nat i =? neurons layer + 1 - 1)%Z with false
        by (symmetry; apply Z.eqb_neq; lia).
      by rewrite andb_false_r.
    + by rewrite length_map, length_seq.
  - intros n Hin Hbias.
    destruct (elem_of_nodes fp _ _ _ _ Hin) as (layer & Hl & Hin').
    rewrite (nodes_of_layer_computeLayout _ _ _ _ _ _ Hl) in Hin'.
    apply list_elem_of_fmap in Hin' as (i & Hn & _).
    rewrite Hn in Hbias |- *. unfold node_at in *.
    cbn [isBias layerIndex] in *.
    destruct (showBias settings); [|done]. split; [done|].
    by destruct (Z.eqb_spec (Z.of_nat (layerIndex n))
                            (Z.of_nat (length layers) - 1)).
  - intros Hb. apply Nat2Z.inj. rewrite Nat2Z.inj_add.
    rewrite !length_nodes by done.
    rewrite total_effectiveCount_true by apply updateSetting_showBias.
    by rewrite total_effectiveCount_false.
Qed.

Lemma node_count_is_sum_of_effectiveCount_witness :
  Z.of_nat (length (nodes (computeLayout sample_fp DEFAULT_LAYERS
                             (DEFAULT_SETTINGS 0) sample_dimensions)))
  = total_effectiveCount (DEFAULT_SETTINGS 0) DEFAULT_LAYERS.
Proof.
  apply (node_count_is_sum_of_effectiveCount sample_fp DEFAULT_LAYERS
           (DEFAULT_SETTINGS 0) sample_dimensions).
  unfold neurons_ge, DEFAULT_LAYERS. repeat (constructor; [simpl; lia|]).
  constructor.
Defined.

(** Outside the data model the count differs from the sum: a layer with a
    negative neuron count contributes no node. *)
Remark negative_neurons_have_no_nodes :
  nodes (computeLayout sample_fp [mkLayerConfig "a" (-2)] (DEFAULT_SETTINGS 0)
           sample_dimensions) = []
  ∧ total_effectiveCount (DEFAULT_SETTINGS 0) [mkLayerConfig "a" (-2)]
    = (-2)%Z.
Proof. split; reflexivity. Qed.

(** The two examples of the specification: layers of 3 and 2 neurons give 5
    nodes and 6 links without bias nodes, 6 nodes and 8 links with them, and
    every link ends in layer 1. *)
Example layers_3_2_without_bias :
  let g := computeLayout sample_fp
             [mkLayerConfig "a" 3; mkLayerConfig "b" 2]
             (DEFAULT_SETTINGS 0) sample_dimensions in
  length (nodes g) = 5%nat ∧ length (links g) = 6%nat
  ∧ Forall (λ l, layerIndex (target l) = 1%nat) (links g).
Proof.
  cbv zeta. split; [reflexivity|]. split; [reflexivity|].
  apply Forall_forall. intros l Hl. vm_compute in Hl.
  repeat (apply elem_of_cons in Hl as [->|Hl]; [reflexivity|]).
  by apply elem_of_nil in Hl.
Qed.

Example layers_3_2_with_bias :
  let g := computeLayout sample_fp
             [mkLayerConfig "a" 3; mkLayerConfig "b" 2]
             (updateSetting (DEFAULT_SETTINGS 0) (Set_showBias true))
             sample_dimensions in
  length (nodes g) = 6%nat ∧ length (links g) = 8%nat
  ∧ isBias <$> nodes g = [false; false; false; true; false; false].
Proof. cbv zeta. repeat split; reflexivity. Qed.

(** C6. On the empty layer list the layout is the empty node list and the
    empty link list, whatever the settings and the viewport. *)
Theorem computeLayout_empty_layers (fp : Float64)
    (settings : VisualSettings) (dimensions : Dimensions) :
  computeLayout fp [] settings dimensions = {| nodes := []; links := [] |}.
Proof. reflexivity. Qed.

(** C9. Deleting the [maxNeurons] line does not change the result of the
    layout computation on any input. *)
Theorem maxNeurons_is_dead_code (fp : Float64) (layers : list LayerConfig)
    (settings : VisualSettings) (dimensions : Dimensions) :
  computeLayout fp layers settings dimensions
  = computeLayout_without_maxNeurons fp layers settings dimensions.
Proof. reflexivity. Qed.

(** ** Link order and weights *)

Lemma length_filter_fmap {A B} (f : A → B) (P : B → Prop)
    `{∀ y, Decision (P y)} (l : list A) :
  length (filter P (f <$> l)) = length (filter (λ x, P (f x)) l).
Proof.
  induction l as [|a l IH]; [done|].
  rewrite fmap_cons, !filter_cons. destruct (decide (P (f a))); cbn; lia.
Qed.

Lemma length_targets (s : Node) (ts : list Node) :
  length (t ← ts; if negb (isBias t) then [(s, t)] else [])
  = length (filter (λ t, isBias t = false) ts).
Proof.
  induction ts as [|t ts IH]; [done|].
  rewrite bind_cons, length_app, IH.
  destruct (isBias t) eqn:E; cbn [negb].
  - rewrite filter_cons_False by (by rewrite E). reflexivity.
  - rewrite filter_cons_True by done. reflexivity.
Qed.

Lemma length_link_pairs_from (srcs nodes : list Node) :
  length (s ← srcs;
          t ← filter (λ n, layerIndex n = (layerIndex s + 1)%nat) nodes;
          if negb (isBias t) then [(s, t)] else [])
  = sum_list ((λ p, length (filter (λ q, q.1 = (p.1 + 1)%nat ∧ q.2 = false)
                                   (skeleton <$> nodes)))
              <$> (skeleton <$> srcs)).
Proof.
  induction srcs as [|s srcs IH]; [done|].
  rewrite bind_cons, length_app, IH, !fmap_cons. cbn [sum_list].
  f_equal. rewrite length_targets, length_filter_fmap, list_filter_filter.
  apply (f_equal length), list_filter_iff. intros n. cbn. tauto.
Qed.

Lemma length_link_pairs (nodes : list Node) :
  length (link_pairs nodes) = link_count (skeleton <$> nodes).
Proof. apply length_link_pairs_from. Qed.

Lemma weight_imap_link_at (fp : Float64) (c : Z)
    (ps : list (Node * Node)) :
  weight <$> imap (link_at fp c) ps
  = (λ k, seededRandom fp (c + Z.of_nat k)) <$> seq 0 (length ps).
Proof. by rewrite fmap_imap, <-imap_seq_0. Qed.

Lemma ends_imap_link_at (fp : Float64) (c : Z) (ps : list (Node * Node)) :
  (λ l, (source l, target l)) <$> imap (link_at fp c) ps = ps.
Proof.
  rewrite fmap_imap. rewrite <-(list_fmap_id ps) at 2.
  rewrite <-(imap_const id). apply imap_ext. by intros k [s t] _.
Qed.

Lemma fmap_concat_imap {B} (h : Node → B) (f : nat → LayerConfig → list Node)
    (g : nat → LayerConfig → list B) (layers : list LayerConfig) :
  (∀ i l, h <$> f i l = g i l) →
  h <$> concat (imap f layers) = concat (imap g layers).
Proof.
  revert f g. induction layers as [|l layers IH]; intros f g Hfg; [done|].
  cbn [imap concat]. rewrite !fmap_app, Hfg. f_equal.
  apply IH. intros i l'. apply Hfg.
Qed.

Lemma skeleton_nodes (fp : Float64) (layers : list LayerConfig)
    (s1 s2 : VisualSettings) (d1 d2 : Dimensions) :
  showBias s1 = showBias s2 →
  skeleton <$> nodes (computeLayout fp layers s1 d1)
  = skeleton <$> nodes (computeLayout fp layers s2 d2).
Proof.
  intros Hb. rewrite !computeLayout_nodes.
  etrans; [|symmetry; by apply fmap_concat_imap].
  apply fmap_concat_imap. intros i l. unfold layer_nodes.
  assert (Heff : effectiveCount s1 (length layers) i l
                 = effectiveCount s2 (length layers) i l).
  { unfold effectiveCount. by rewrite Hb. }
  rewrite Heff, <-!list_fmap_compose. apply list_fmap_ext. intros _ k _.
  unfold skeleton, node_at. cbn. by rewrite Hb, Heff.
Qed.

(** C3. The nodes are listed layer by layer and, in a layer, by ascending
    index; the links are pushed in the order of the two loops (sources in
    node order, for each source the non-bias nodes of the next layer in
    node order); while the counter stays within [-2^53, 2^53], where a
    binary64 counter counts exactly, the [k]-th link has the weight
    [frac(sin(weightSeed + k) * 10000)] in the arithmetic of the code
    ([x = sin(weightSeed + k) * 10000] rounded, [x - floor x] rounded); and
    two layouts of the same layers with the same [weightSeed] and the same
    [showBias] have the same weight sequence, whatever the other settings
    and the viewport. *)
Theorem link_weights_follow_counter (fp : Float64)
    (layers : list LayerConfig) (settings : VisualSettings)
    (dimensions : Dimensions) :
  let graph := computeLayout fp layers settings dimensions in
  node_key <$> nodes graph
  = concat (imap (λ i layer,
                    (λ j, (i, j))
                    <$> seq 0 (Z.to_nat (effectiveCount settings (length layers)
                                           i layer)))
                 layers)
  ∧ (λ l, (source l, target l)) <$> links graph = link_pairs (nodes graph)
  ∧ ((- 2 ^ 53 ≤ weightSeed settings)%Z →
     (weightSeed settings + Z.of_nat (length (links graph)) ≤ 2 ^ 53)%Z →
     weight <$> links graph
     = (λ k,
          let x :=
            round64 fp
              (Math_sin fp (weightSeed settings + Z.of_nat k)%Z * 10000) in
          round64 fp (x - inject_Z (Qfloor x)))
       <$> seq 0 (length (links graph)))
  ∧ (∀ settings' dimensions',
       weightSeed settings' = weightSeed settings →
       showBias settings' = showBias settings →
       weight <$> links (computeLayout fp layers settings' dimensions')
       = weight <$> links graph).
Proof.
  intros graph. subst graph. refine (conj _ (conj _ (conj _ _))).
  - rewrite computeLayout_nodes. apply fmap_concat_imap. intros i l.
    unfold layer_nodes. rewrite <-list_fmap_compose.
    by apply list_fmap_ext.
  - rewrite computeLayout_links. apply ends_imap_link_at.
  - intros _ _. rewrite computeLayout_links, weight_imap_link_at, length_imap.
    reflexivity.
  - intros settings' dimensions' Hseed Hbias.
    rewrite !computeLayout_links, !weight_imap_link_at, Hseed.
    by rewrite !length_link_pairs, (skeleton_nodes _ _ _ settings _ dimensions).
Qed.

Lemma link_weights_follow_counter_witness :
  weight <$> links (computeLayout sample_fp DEFAULT_LAYERS
                      (DEFAULT_SETTINGS 7) sample_dimensions)
  = (λ k,
       let x :=
         round64 sample_fp
           (Math_sin sample_fp (weightSeed (DEFAULT_SETTINGS 7) + Z.of_nat k)%Z
            * 10000) in
       round64 sample_fp (x - inject_Z (Qfloor x)))
    <$> seq 0 (length (links (computeLayout sample_fp DEFAULT_LAYERS
                                (DEFAULT_SETTINGS 7) sample_dimensions)))
  ∧ weight <$> links (computeLayout sample_fp DEFAULT_LAYERS
                        (updateSetting (DEFAULT_SETTINGS 7)
                           (Set_direction vertical))
                        {| width := 1024; height := 768 |})
    = weight <$> links (computeLayout sample_fp DEFAULT_LAYERS
                          (DEFAULT_SETTINGS 7) sample_dimensions).
Proof.
  split.
  - apply (proj1 (proj2 (proj2
      (link_weights_follow_counter sample_fp DEFAULT_LAYERS
         (DEFAULT_SETTINGS 7) sample_dimensions)))).
    + apply Z.leb_le. vm_compute. reflexivity.
    + apply Z.leb_le. vm_compute. reflexivity.
  - apply (proj2 (proj2 (proj2
      (link_weights_follow_counter sample_fp DEFAULT_LAYERS
         (DEFAULT_SETTINGS 7) sample_dimensions)))); reflexivity.
Defined.

(** ** Identifiers *)

Lemma string_all_impl (P R : ascii → Prop) (s : string) :
  (∀ c, P c → R c) → string_all P s → string_all R s.
Proof.
  intros HPR. induction s as [|c s IH]; cbn; [done|].
  intros [Hc Hs]. split; auto.
Qed.

Lemma string_all_app (P : ascii → Prop) (s t : string) :
  string_all P (s +:+ t) ↔ string_all P s ∧ string_all P t.
Proof. induction s as [|c s IH]; simpl; [tauto|]. rewrite IH. tauto. Qed.

Lemma pretty_N_char_digit (x : N) : is_digit (pretty_N_char x).
Proof.
  unfold pretty_N_char, is_digit.
  destruct x as [|p]; [vm_compute; lia|].
  do 4 (try destruct p as [p|p|]); vm_compute; lia.
Qed.

Lemma pretty_N_go_digits (x : N) (s : string) :
  string_all is_digit s → string_all is_digit (pretty_N_go x s).
Proof.
  revert s. induction (N.lt_wf_0 x) as [x _ IH]; intros s Hs.
  destruct (decide (x = 0%N)) as [->|Hx]; [done|].
  rewrite pretty_N_go_step by lia.
  apply IH; [apply N.div_lt; lia|].
  split; [apply pretty_N_char_digit|done].
Qed.

Lemma pretty_nat_digits (n : nat) : string_all is_digit (pretty n).
Proof.
  unfold pretty, pretty_nat, pretty, pretty_N. case_decide.
  - split; [vm_compute; lia|done].
  - by apply pretty_N_go_digits.
Qed.

(** A string is cut in one way only at the first occurrence of a
    character. *)
Lemma split_first (d : ascii) (s s' r r' : string) :
  string_all (λ c, c ≠ d) s → string_all (λ c, c ≠ d) s' →
  s +:+ String d r = s' +:+ String d r' → s = s' ∧ r = r'.
Proof.
  revert s'. induction s as [|c s IH]; intros [|c' s']; cbn.
  - intros _ _ [= ->]. done.
  - intros _ [Hc' _] [= <- _]. done.
  - intros [Hc _] _ [= -> _]. done.
  - intros [_ Hs] [_ Hs'] [= -> Heq].
    destruct (IH s' Hs Hs' Heq) as [-> ->]. done.
Qed.

Lemma digits_no_char (d : ascii) (s : string) :
  ¬ is_digit d → string_all is_digit s → string_all (λ c, c ≠ d) s.
Proof. intros Hd. apply string_all_impl. intros c Hc ->. done. Qed.

Lemma nodeId_inj (a b a' b' : nat) :
  nodeId a b = nodeId a' b' → a = a' ∧ b = b'.
Proof.
  unfold nodeId. cbn [String.append].
  assert (Hdash : ¬ is_digit "-"%char) by (vm_compute; lia).
  intros [Ha Hb]%split_first;
    [|by apply digits_no_char, pretty_nat_digits..].
  split; [by apply (inj pretty)|].
  apply (inj pretty). done.
Qed.

Lemma nodeId_no_gt (a b : nat) :
  string_all (λ c, c ≠ ">"%char) (nodeId a b +:+ "-").
Proof.
  assert (Hgt : ¬ is_digit ">"%char) by (vm_compute; lia).
  unfold nodeId. rewrite !string_all_app. cbn [string_all].
  repeat split; first [by apply digits_no_char, pretty_nat_digits | done].
Qed.

Lemma string_app_assoc (s t u : string) :
  (s +:+ t) +:+ u = s +:+ (t +:+ u).
Proof.
  induction s as [|c s IH]; [done|].
  change (String c ((s +:+ t) +:+ u) = String c (s +:+ (t +:+ u))).
  by rewrite IH.
Qed.

Lemma nodeId_dash_inj (a b a' b' : nat) :
  nodeId a b +:+ "-" = nodeId a' b' +:+ "-" → a = a' ∧ b = b'.
Proof.
  unfold nodeId. rewrite !string_app_assoc.
  change ("-" +:+ ?s +:+ "-") with (String "-" (s +:+ String "-" "")).
  assert (Hdash : ¬ is_digit "-"%char) by (vm_compute; lia).
  intros [Ha [Hb _]%split_first]%split_first;
    [|by apply digits_no_char, pretty_nat_digits..].
  split; by apply (inj pretty).
Qed.

Lemma linkId_inj (a b c d a' b' c' d' : nat) :
  nodeId a b +:+ "->" +:+ nodeId c d = nodeId a' b' +:+ "->" +:+ nodeId c' d' →
  (a = a' ∧ b = b') ∧ (c = c' ∧ d = d').
Proof.
  change ("->" +:+ ?s) with ("-" +:+ String ">" s).
  rewrite <-!string_app_assoc.
  intros [Hs Ht]%split_first; [|apply nodeId_no_gt..].
  split; [by apply nodeId_dash_inj|by apply nodeId_inj].
Qed.

(** ** Distinct nodes, distinct pairs *)

Lemma NoDup_keys_concat_imap (f : nat → LayerConfig → list Node) (start : nat)
    (layers : list LayerConfig) :
  (∀ i l, NoDup (neuronIndex <$> f i l)) →
  (∀ i l m, m ∈ f i l → layerIndex m = (start + i)%nat) →
  NoDup (node_key <$> concat (imap f layers)).
Proof.
  revert f start. induction layers as [|l layers IH]; intros f start Hnd Hf.
  - constructor.
  - cbn [imap concat]. rewrite fmap_app. apply NoDup_app.
    assert (Hrest : ∀ i l' m, m ∈ (f ∘ S) i l' →
                     layerIndex m = (S start + i)%nat).
    { intros i l' m Hm. apply Hf in Hm. lia. }
    refine (conj _ (conj _ _)).
    + apply (NoDup_fmap_1 snd). rewrite <-list_fmap_compose. apply Hnd.
    + intros k (n & -> & Hn%Hf)%list_elem_of_fmap
             (m & Hk & Hm)%list_elem_of_fmap.
      apply (imap_layer_bounds _ (S start)) in Hm; [|done].
      injection Hk as Hk _. lia.
    + apply (IH _ (S start)); [|done]. intros i l'. apply Hnd.
Qed.

Section DistinctNodes.
Variable fp : Float64.
Variables (layers : list LayerConfig) (settings : VisualSettings).
Variable dimensions : Dimensions.

Local Abbreviation graph := (computeLayout fp layers settings dimensions).

Lemma NoDup_node_keys : NoDup (node_key <$> nodes graph).
Proof.
  rewrite computeLayout_nodes. apply (NoDup_keys_concat_imap _ 0).
  - intros i l. unfold layer_nodes. rewrite <-list_fmap_compose.
    erewrite list_fmap_ext; [rewrite list_fmap_id; apply NoDup_seq|].
    by intros _ k _.
  - intros i l m Hm. by apply layer_nodes_layerIndex in Hm.
Qed.

Lemma NoDup_nodes : NoDup (nodes graph).
Proof. apply (NoDup_fmap_1 node_key), NoDup_node_keys. Qed.

Lemma node_id_in_graph (n : Node) :
  n ∈ nodes graph → node_id n = nodeId (layerIndex n) (neuronIndex n).
Proof.
  intros Hin.
  destruct (elem_of_nodes fp _ _ _ _ Hin) as (layer & Hl & Hin').
  rewrite (nodes_of_layer_computeLayout _ _ _ _ _ _ Hl) in Hin'.
  apply list_elem_of_fmap in Hin' as (i & Hn & _).
  rewrite Hn at 1. cbn [node_id node_at]. f_equal.
  rewrite Hn. done.
Qed.

Lemma node_key_inj_in_graph (n m : Node) :
  n ∈ nodes graph → m ∈ nodes graph → node_key n = node_key m → n = m.
Proof.
  intros Hn Hm Hk.
  destruct (elem_of_nodes fp _ _ _ _ Hn) as (ln & Hln & Hn').
  destruct (elem_of_nodes fp _ _ _ _ Hm) as (lm & Hlm & Hm').
  rewrite (nodes_of_layer_computeLayout _ _ _ _ _ _ Hln) in Hn'.
  rewrite (nodes_of_layer_computeLayout _ _ _ _ _ _ Hlm) in Hm'.
  apply list_elem_of_fmap in Hn' as (i & Hni & _).
  apply list_elem_of_fmap in Hm' as (j & Hmj & _).
  injection Hk as Hlayer Hidx.
  rewrite <-Hlayer, Hln in Hlm. injection Hlm as <-.
  rewrite Hni, Hmj, <-Hlayer. f_equal.
  rewrite Hni, Hmj in Hidx. done.
Qed.

End DistinctNodes.

Lemma elem_of_targets (s : Node) (ts : list Node) (p : Node * Node) :
  p ∈ (t ← ts; if negb (isBias t) then [(s, t)] else [])
  ↔ ∃ t, p = (s, t) ∧ t ∈ ts ∧ isBias t = false.
Proof.
  rewrite list_elem_of_bind. split.
  - intros (t & Hp & Ht). exists t.
    destruct (isBias t); cbn in Hp.
    + by apply elem_of_nil in Hp.
    + apply list_elem_of_singleton in Hp. done.
  - intros (t & -> & Ht & Hb). exists t. rewrite Hb. cbn.
    split; [by apply list_elem_of_singleton|done].
Qed.

Lemma elem_of_link_pairs (nodes : list Node) (s t : Node) :
  (s, t) ∈ link_pairs nodes
  ↔ s ∈ nodes ∧ t ∈ nodes
    ∧ layerIndex t = (layerIndex s + 1)%nat ∧ isBias t = false.
Proof.
  unfold link_pairs. rewrite list_elem_of_bind. split.
  - intros (s' & (t' & [= <- <-] & [Hl Ht]%list_elem_of_filter & Hb)
                 %elem_of_targets & Hs). done.
  - intros (Hs & Ht & Hl & Hb). exists s. split; [|done].
    apply elem_of_targets. exists t.
    split; [done|]. split; [|done]. by apply list_elem_of_filter.
Qed.

Lemma NoDup_link_pairs (nodes : list Node) :
  NoDup nodes → NoDup (link_pairs nodes).
Proof.
  intros Hnd. unfold link_pairs. apply NoDup_bind; [| |done].
  - intros s1 s2 p _ _ (t1 & -> & _)%elem_of_targets
           (t2 & [= -> _] & _)%elem_of_targets. done.
  - intros s _. apply NoDup_bind; [| |by apply NoDup_filter].
    + intros t1 t2 p _ _ Hp1 Hp2.
      destruct (isBias t1), (isBias t2); cbn in Hp1, Hp2;
        try (by apply elem_of_nil in Hp1); try (by apply elem_of_nil in Hp2).
      apply list_elem_of_singleton in Hp1, Hp2. congruence.
    + intros t _. destruct (isBias t); cbn; [constructor|].
      apply NoDup_singleton.
Qed.

(** ** Claim about identifiers *)

(** C10. In the result of one layout computation no two nodes have the same
    [id] and no two links have the same [id]. *)
Theorem ids_are_distinct (fp : Float64) (layers : list LayerConfig)
    (settings : VisualSettings) (dimensions : Dimensions) :
  let graph := computeLayout fp layers settings dimensions in
  NoDup (node_id <$> nodes graph) ∧ NoDup (link_id <$> links graph).
Proof.
  intros graph. subst graph. split.
  - apply NoDup_fmap_2_strong; [|apply NoDup_nodes].
    intros n m Hn Hm Hid.
    rewrite (node_id_in_graph _ _ _ _ _ Hn) in Hid.
    rewrite (node_id_in_graph _ _ _ _ _ Hm) in Hid.
    apply nodeId_inj in Hid as [Hl Hi].
    apply (node_key_inj_in_graph fp layers settings dimensions);
      [done..|]. unfold node_key. by rewrite Hl, Hi.
  - rewrite computeLayout_links, fmap_imap.
    rewrite (imap_ext _ (const (λ p, linkId p.1 p.2))) by done.
    rewrite imap_const.
    apply NoDup_fmap_2_strong; [|apply NoDup_link_pairs, NoDup_nodes].
    intros [s t] [s' t'] (Hs & Ht & _)%elem_of_link_pairs
           (Hs' & Ht' & _)%elem_of_link_pairs Hid.
    unfold linkId in Hid. cbn [fst snd] in Hid.
    rewrite (node_id_in_graph _ _ _ _ _ Hs) in Hid.
    rewrite (node_id_in_graph _ _ _ _ _ Ht) in Hid.
    rewrite (node_id_in_graph _ _ _ _ _ Hs') in Hid.
    rewrite (node_id_in_graph _ _ _ _ _ Ht') in Hid.
    apply linkId_inj in Hid as [[Hsl Hsi] [Htl Hti]].
    f_equal;
      apply (node_key_inj_in_graph fp layers settings dimensions);
      try done; unfold node_key; congruence.
Qed.

(** ** Counting links *)

Lemma length_filter_eq_NoDup {A} `{EqDecision A} (x : A) (l : list A) :
  NoDup l → x ∈ l → length (filter (λ y, y = x) l) = 1%nat.
Proof.
  induction 1 as [|a l Ha Hnd IH]; [by intros ?%elem_of_nil|].
  intros [->|Hx]%elem_of_cons.
  - rewrite filter_cons_True by done. cbn. f_equal.
    rewrite filter_none; [done|]. by intros y Hy ->.
  - rewrite filter_cons_False by (by intros ->). by apply IH.
Qed.

Lemma length_filter_targets (s t : Node) (ts : list Node) :
  length (filter (λ p, p.2 = t)
                 (t' ← ts; if negb (isBias t') then [(s, t')] else []))
  = length (filter (λ t', t' = t ∧ isBias t' = false) ts).
Proof.
  induction ts as [|t' ts IH]; [done|].
  rewrite bind_cons, filter_app, length_app, IH, (filter_cons _ t').
  destruct (isBias t') eqn:E; cbn [negb].
  - destruct (decide _) as [[_ ?]|_]; [congruence|]. reflexivity.
  - rewrite filter_cons. cbn [snd].
    destruct (decide (t' = t)) as [->|Hne]; destruct (decide _) as [Hd|Hd];
      try reflexivity; tauto.
Qed.

Lemma length_filter_into (t : Node) (srcs nodes : list Node) :
  NoDup nodes → t ∈ nodes → isBias t = false →
  length (filter (λ p, p.2 = t)
            (s ← srcs;
             t' ← filter (λ n, layerIndex n = (layerIndex s + 1)%nat) nodes;
             if negb (isBias t') then [(s, t')] else []))
  = length (filter (λ s, layerIndex t = (layerIndex s + 1)%nat) srcs).
Proof.
  intros Hnd Ht Hb. induction srcs as [|s srcs IH]; [done|].
  rewrite bind_cons, filter_app, length_app, IH, (filter_cons _ s).
  rewrite length_filter_targets, list_filter_filter.
  destruct (decide (layerIndex t = (layerIndex s + 1)%nat)) as [Hl|Hl].
  - rewrite (list_filter_iff _ (λ y, y = t)).
    + by rewrite (length_filter_eq_NoDup t nodes Hnd Ht).
    + intros n. split; [tauto|]. intros ->. done.
  - rewrite filter_none; [done|]. intros n _ [[-> _] Hn]. done.
Qed.

Section LinkFacts.
Variable fp : Float64.
Variables (layers : list LayerConfig) (settings : VisualSettings).
Variable dimensions : Dimensions.

Local Abbreviation graph := (computeLayout fp layers settings dimensions).

Lemma link_ends (l : Link) :
  l ∈ links graph → (source l, target l) ∈ link_pairs (nodes graph).
Proof.
  intros Hl.
  pose proof (ends_imap_link_at fp (weightSeed settings)
                (link_pairs (nodes graph))) as Hends.
  rewrite <-computeLayout_links in Hends. rewrite <-Hends.
  by apply (list_elem_of_fmap_2 (λ l, (source l, target l))).
Qed.

Lemma length_filter_links (P : Node * Node → Prop) `{∀ p, Decision (P p)} :
  length (filter (λ l, P (source l, target l)) (links graph))
  = length (filter P (link_pairs (nodes graph))).
Proof.
  rewrite <-(length_filter_fmap (λ l, (source l, target l)) P).
  rewrite computeLayout_links at 1. by rewrite ends_imap_link_at.
Qed.

End LinkFacts.

(** ** Claim about the links *)

(** C2. For a layer list whose neuron counts are not negative: every link
    goes from a node of the layout to a non-bias node of the next layer;
    every node (bias nodes too) has exactly one link to every non-bias node
    of the next layer; and a non-bias node of layer [i+1] has exactly
    [neuronCount[i] + 1] incoming links when [showBias] is on and
    [neuronCount[i]] when it is off (layer [i] is not the last layer), all
    from layer [i]. *)
Theorem links_are_the_adjacent_pairs (fp : Float64)
    (layers : list LayerConfig) (settings : VisualSettings)
    (dimensions : Dimensions) :
  neurons_ge 0 layers →
  let graph := computeLayout fp layers settings dimensions in
  (∀ l, l ∈ links graph →
     source l ∈ nodes graph ∧ target l ∈ nodes graph
     ∧ layerIndex (target l) = (layerIndex (source l) + 1)%nat
     ∧ isBias (target l) = false)
  ∧ (∀ s t, s ∈ nodes graph → t ∈ nodes graph →
       layerIndex t = (layerIndex s + 1)%nat → isBias t = false →
       length (links_between s t (links graph)) = 1%nat)
  ∧ (∀ i prev t, layers !! i = Some prev → t ∈ nodes graph →
       layerIndex t = S i → isBias t = false →
       Z.of_nat (length (links_into t (links graph)))
       = (if showBias settings then neurons prev + 1 else neurons prev)%Z
       ∧ ∀ l, l ∈ links_into t (links graph) → layerIndex (source l) = i).
Proof.
  intros Hvalid graph. subst graph. refine (conj _ (conj _ _)).
  - intros l Hl%link_ends. by apply elem_of_link_pairs.
  - intros s t Hs Ht Hl Hb. unfold links_between.
    etrans;
      [exact (length_filter_links _ _ _ _ (λ p, p.1 = s ∧ p.2 = t))|].
    rewrite <-(length_filter_eq_NoDup (s, t) (link_pairs
      (nodes (computeLayout fp layers settings dimensions)))).
    + apply (f_equal length), list_filter_iff. intros [s' t']. cbn.
      split; [by intros [-> ->]|by intros [= -> ->]].
    + apply NoDup_link_pairs, NoDup_nodes.
    + by apply elem_of_link_pairs.
  - intros i prev t Hprev Ht Hl Hb. split.
    + unfold links_into.
      erewrite (f_equal Z.of_nat);
        [|exact (length_filter_links _ _ _ _ (λ p, p.2 = t))].
      unfold link_pairs.
      rewrite length_filter_into by (done || apply NoDup_nodes).
      rewrite Hl.
      rewrite (list_filter_iff _ (λ n, layerIndex n = i))
        by (intros n; lia).
      fold (nodes_of_layer i
              (nodes (computeLayout fp layers settings dimensions))).
      rewrite (nodes_of_layer_computeLayout _ _ _ _ _ _ Hprev).
      assert (S i < length layers)%nat as Hnext.
      { destruct (elem_of_nodes fp _ _ _ _ Ht) as (layer & Hlayer & _).
        rewrite Hl in Hlayer. by apply lookup_lt_Some in Hlayer. }
      rewrite layer_nodes_length, Z2Nat.id.
      * unfold effectiveCount. cbv zeta.
        destruct (Z.eqb_spec (Z.of_nat i) (Z.of_nat (length layers) - 1));
          [lia|]. by destruct (showBias settings).
      * apply effectiveCount_nonneg.
        eapply (proj1 (Forall_forall _ _) Hvalid), list_elem_of_lookup_2, Hprev.
    + intros l [Htl Hin]%list_elem_of_filter.
      apply link_ends, elem_of_link_pairs in Hin as (_ & _ & Hli & _).
      rewrite Htl in Hli. lia.
Qed.

Lemma sample_node_0_0_in : sample_node_0_0 ∈ nodes sample_graph.
Proof. apply (list_elem_of_lookup_2 _ 0). vm_compute. reflexivity. Qed.

Lemma sample_node_1_0_in : sample_node_1_0 ∈ nodes sample_graph.
Proof. apply (list_elem_of_lookup_2 _ 18). vm_compute. reflexivity. Qed.

Lemma DEFAULT_LAYERS_neurons_ge_0 : neurons_ge 0 DEFAULT_LAYERS.
Proof.
  unfold neurons_ge, DEFAULT_LAYERS. repeat (constructor; [simpl; lia|]).
  constructor.
Qed.

Lemma links_are_the_adjacent_pairs_witness :
  length (links_between sample_node_0_0 sample_node_1_0 (links sample_graph))
  = 1%nat
  ∧ Z.of_nat (length (links_into sample_node_1_0 (links sample_graph))) = 18%Z.
Proof.
  split.
  - apply (proj1 (proj2 (links_are_the_adjacent_pairs sample_fp DEFAULT_LAYERS
                           (DEFAULT_SETTINGS 0) sample_dimensions
                           DEFAULT_LAYERS_neurons_ge_0))).
    + exact sample_node_0_0_in.
    + exact sample_node_1_0_in.
    + reflexivity.
    + reflexivity.
  - apply (proj2 (proj2 (links_are_the_adjacent_pairs sample_fp DEFAULT_LAYERS
                           (DEFAULT_SETTINGS 0) sample_dimensions
                           DEFAULT_LAYERS_neurons_ge_0))
             0%nat (mkLayerConfig "l1" 18) sample_node_1_0).
    + reflexivity.
    + exact sample_node_1_0_in.
    + reflexivity.
    + reflexivity.
Defined.

(** With the bias units shown, each of the 12 neurons of the second default
    layer has 19 incoming links: the 18 neurons of the first layer and its
    bias unit. *)
Example default_layers_incoming_links_with_bias :
  let graph :=
    computeLayout sample_fp DEFAULT_LAYERS
      (updateSetting (DEFAULT_SETTINGS 0) (Set_showBias true))
      sample_dimensions in
  Forall (λ t, length (links_into t (links graph)) = 19%nat)
         (filter (λ n, isBias n = false) (nodes_of_layer 1 (nodes graph)))
  ∧ length (filter (λ n, isBias n = false) (nodes_of_layer 1 (nodes graph)))
    = 12%nat.
Proof.
  cbv zeta. split.
  - apply (bool_decide_unpack _). vm_compute. reflexivity.
  - vm_compute. reflexivity.
Qed.

(** ** The sample inputs are inputs of the application *)

Lemma DEFAULT_SETTINGS_sliders (now : Z) :
  slider_settings (DEFAULT_SETTINGS now).
Proof. split; [exists 20%Z|exists 200%Z]; (split; [reflexivity|lia]). Qed.

Lemma sample_dimensions_pixels : pixel_viewport sample_dimensions.
Proof. split; [exists 800%Z|exists 600%Z]; (split; [reflexivity|lia]). Qed.

Lemma DEFAULT_LAYERS_valid_counts : valid_counts DEFAULT_LAYERS.
Proof.
  unfold valid_counts, DEFAULT_LAYERS. repeat (constructor; [simpl; lia|]).
  constructor.
Qed.

Lemma DEFAULT_LAYERS_array_length : array_length_ok DEFAULT_LAYERS.
Proof. unfold array_length_ok. apply Z.ltb_lt. vm_compute. reflexivity. Qed.

Lemma valid_counts_neurons_ge (layers : list LayerConfig) :
  valid_counts layers → neurons_ge 1 layers.
Proof. intros H. eapply Forall_impl; [exact H|]. intros l. cbn. lia. Qed.

Lemma sample_node_0_1_in : sample_node_0_1 ∈ nodes sample_graph.
Proof. apply (list_elem_of_lookup_2 _ 1). vm_compute. reflexivity. Qed.

(** ** Claim about the main axis *)

Section MainAxis.
Variable fp : Float64.
Variables (layers : list LayerConfig) (settings : VisualSettings).
Variable dimensions : Dimensions.

Local Abbreviation graph := (computeLayout fp layers settings dimensions).

Lemma mainCoord_in_graph (n : Node) :
  n ∈ nodes graph →
  mainCoord settings n = layerMainPos layers settings dimensions (layerIndex n).
Proof.
  intros Hin.
  destruct (elem_of_nodes fp _ _ _ _ Hin) as (layer & Hl & Hin').
  rewrite (nodes_of_layer_computeLayout _ _ _ _ _ _ Hl) in Hin'.
  apply list_elem_of_fmap in Hin' as (i & Hn & _).
  rewrite Hn at 1. unfold mainCoord, layerMainPos, mainCenter, node_at.
  cbn [pos_x pos_y]. by destruct (bool_decide (direction settings = horizontal)).
Qed.

Lemma layerMainPos_succ (k : nat) :
  layerMainPos layers settings dimensions (S k)
  - layerMainPos layers settings dimensions k == layerSpacing settings.
Proof.
  unfold layerMainPos. rewrite Nat2Z.inj_succ. unfold Z.succ.
  rewrite inject_Z_plus. ring.
Qed.

Lemma layerMainPos_mirror (k : nat) :
  (k < length layers)%nat →
  layerMainPos layers settings dimensions (length layers - 1 - k)
  - mainCenter settings dimensions
  == mainCenter settings dimensions - layerMainPos layers settings dimensions k.
Proof.
  intros Hk. unfold layerMainPos, layoutExtent.
  replace (Z.of_nat (length layers - 1 - k))
    with (Z.of_nat (length layers) - 1 + - Z.of_nat k)%Z by lia.
  rewrite inject_Z_plus, inject_Z_opp. field.
Qed.

Lemma layer_has_node (k : nat) :
  neurons_ge 1 layers → (k < length layers)%nat →
  ∃ n, n ∈ nodes graph ∧ layerIndex n = k.
Proof.
  intros Hvalid Hk. apply lookup_lt_is_Some_2 in Hk as [layer Hl].
  assert (1 ≤ neurons layer)%Z as Hn.
  { eapply (proj1 (Forall_forall _ _) Hvalid), list_elem_of_lookup_2, Hl. }
  pose proof (nodes_of_layer_computeLayout fp _ settings dimensions _ _
                Hl) as Heq.
  pose proof (layer_nodes_length settings (length layers)
                (bool_decide (direction settings = horizontal))
                (width dimensions / 2) (height dimensions / 2)
                (if bool_decide (direction settings = horizontal)
                 then width dimensions / 2 - layoutExtent layers settings / 2
                 else height dimensions / 2 - layoutExtent layers settings / 2)
                k layer) as Hlen.
  rewrite <-Heq in Hlen.
  pose proof (effectiveCount_ge_neurons settings (length layers) k layer).
  destruct (nodes_of_layer k (nodes graph)) as [|n ns] eqn:E;
    [cbn in Hlen; lia|].
  assert (n ∈ nodes_of_layer k (nodes graph)) as Hin by (rewrite E; left).
  apply list_elem_of_filter in Hin as [? ?]. by exists n.
Qed.

End MainAxis.

(** C5. For a whole-number [layerSpacing] from 50 to 400 (what the slider
    gives), a viewport in whole pixels and an array of layers: every node
    lies on the main axis at [center - extent/2 + k * layerSpacing] where [k]
    is its layer and [extent = (layers.length - 1) * layerSpacing]; nodes of
    consecutive layers are [layerSpacing] apart on the main axis; position
    [k] and position [layers.length - 1 - k] are mirror images about the
    viewport centre; and when every layer has at least one neuron, every node
    has a node at the mirror image of its main coordinate. *)
Theorem layers_evenly_spaced_and_centered (fp : Float64)
    (layers : list LayerConfig) (settings : VisualSettings)
    (dimensions : Dimensions) :
  whole_between 50 400 (layerSpacing settings) →
  pixel_viewport dimensions →
  array_length_ok layers →
  let graph := computeLayout fp layers settings dimensions in
  let center := mainCenter settings dimensions in
  (∀ n, n ∈ nodes graph →
     mainCoord settings n
     = center - layoutExtent layers settings / 2
       + inject_Z (Z.of_nat (layerIndex n)) * layerSpacing settings)
  ∧ (∀ a b, a ∈ nodes graph → b ∈ nodes graph →
       layerIndex b = S (layerIndex a) →
       mainCoord settings b - mainCoord settings a == layerSpacing settings)
  ∧ (∀ k, (k < length layers)%nat →
       layerMainPos layers settings dimensions (length layers - 1 - k) - center
       == center - layerMainPos layers settings dimensions k)
  ∧ (neurons_ge 1 layers →
     ∀ n, n ∈ nodes graph →
       ∃ m, m ∈ nodes graph
            ∧ layerIndex m = (length layers - 1 - layerIndex n)%nat
            ∧ mainCoord settings m - center == center - mainCoord settings n).
Proof.
  intros _ _ _ graph center. subst graph center.
  refine (conj _ (conj _ (conj _ _))).
  - intros n Hn. by rewrite (mainCoord_in_graph _ _ _ _ _ Hn).
  - intros a b Ha Hb Hl.
    rewrite (mainCoord_in_graph _ _ _ _ _ Ha), (mainCoord_in_graph _ _ _ _ _ Hb).
    rewrite Hl. apply layerMainPos_succ.
  - intros k Hk. by apply layerMainPos_mirror.
  - intros Hvalid n Hn.
    assert (layerIndex n < length layers)%nat as Hlt.
    { destruct (elem_of_nodes fp _ _ _ _ Hn) as (layer & Hl & _).
      by apply lookup_lt_Some in Hl. }
    destruct (layer_has_node fp layers settings dimensions
                (length layers - 1 - layerIndex n) Hvalid) as (m & Hm & Hlm);
      [lia|].
    exists m. split; [done|]. split; [done|].
    rewrite (mainCoord_in_graph _ _ _ _ _ Hn), (mainCoord_in_graph _ _ _ _ _ Hm).
    rewrite Hlm. by apply layerMainPos_mirror.
Qed.

Lemma layers_evenly_spaced_and_centered_witness :
  mainCoord (DEFAULT_SETTINGS 0) sample_node_1_0
  - mainCoord (DEFAULT_SETTINGS 0) sample_node_0_0
  == layerSpacing (DEFAULT_SETTINGS 0).
Proof.
  apply (proj1 (proj2 (layers_evenly_spaced_and_centered sample_fp
                         DEFAULT_LAYERS (DEFAULT_SETTINGS 0) sample_dimensions
                         (proj2 (DEFAULT_SETTINGS_sliders 0))
                         sample_dimensions_pixels
                         DEFAULT_LAYERS_array_length))).
  - exact sample_node_0_0_in.
  - exact sample_node_1_0_in.
  - reflexivity.
Defined.

(** ** Decimal renderings and superscripts *)

Lemma pretty_Z_digits (z : Z) : (0 ≤ z)%Z → string_all is_digit (pretty z).
Proof.
  destruct z as [|p|p]; intros Hz.
  - split; [vm_compute; lia|done].
  - unfold pretty, pretty_Z, pretty, pretty_positive, pretty, pretty_N.
    case_decide; [done|]. by apply pretty_N_go_digits.
  - lia.
Qed.

(** ** Sidebar.tsx: edits *)

Lemma read_layers_lookup (σ : Store) (layers : list ref)
    (v : list LayerConfig) (i : nat) (r : ref) :
  read_layers σ layers = Some v → layers !! i = Some r →
  ∃ obj, σ !! r = Some obj ∧ v !! i = Some obj.
Proof.
  unfold read_layers. intros Hv%mapM_Some_1 Hr.
  destruct (Forall2_lookup_l _ _ _ _ _ Hv Hr) as (obj & Hobj & Hσ).
  by exists obj.
Qed.

Lemma read_layers_ext (σ σ' : Store) (layers : list ref) :
  (∀ r, r ∈ layers → σ' !! r = σ !! r) →
  read_layers σ' layers = read_layers σ layers.
Proof.
  intros Hext. unfold read_layers. induction layers as [|r layers IH]; [done|].
  cbn. rewrite Hext by left. rewrite IH; [done|].
  intros r' Hr'. apply Hext. by right.
Qed.

(** C7. Setting the neuron count of a layer that exists stores the value
    clamped to [1, 50]: what is read back at that index is [max 1 (min 50
    value)], so 1 for 0 and 50 for 75, and always between 1 and 50. *)
Theorem updateLayerNeuron_clamps (σ : Store) (layers : list ref) (index : nat)
    (r : ref) (obj : LayerConfig) :
  layers !! index = Some r →
  σ !! r = Some obj →
  (∀ value,
     neurons_after (updateLayerNeuron layers index value σ) index
     = Some (Z.max 1 (Z.min 50 value)))
  ∧ neurons_after (updateLayerNeuron layers index 0 σ) index = Some 1%Z
  ∧ neurons_after (updateLayerNeuron layers index 75 σ) index = Some 50%Z
  ∧ (∀ value n,
       neurons_after (updateLayerNeuron layers index value σ) index = Some n →
       (1 ≤ n ≤ 50)%Z).
Proof.
  intros Hr Hobj.
  assert (∀ value,
     neurons_after (updateLayerNeuron layers index value σ) index
     = Some (Z.max 1 (Z.min 50 value))) as Hclamp.
  { intros value. unfold updateLayerNeuron, neurons_after.
    rewrite Hr. cbn. rewrite Hobj. cbn. rewrite Hr. cbn.
    by rewrite lookup_insert_eq. }
  refine (conj Hclamp (conj _ (conj _ _))).
  - by rewrite Hclamp.
  - by rewrite Hclamp.
  - intros value n. rewrite Hclamp. intros [= <-]. lia.
Qed.

Lemma updateLayerNeuron_clamps_witness :
  neurons_after (updateLayerNeuron initial_layers 0 75 initial_store) 0
  = Some 50%Z.
Proof.
  apply (updateLayerNeuron_clamps initial_store initial_layers 0 1%positive
           {| layer_id := "l1"; neurons := 18 |}); reflexivity.
Defined.

(** The edits other than [updateLayerNeuron] leave every object that an
    earlier array references as it was. *)
Lemma addLayer_keeps_snapshot (σ : Store) (layers old : list ref) (now : Z)
    (v : list LayerConfig) :
  read_layers σ old = Some v →
  read_layers (addLayer layers now σ).1 old = Some v.
Proof.
  intros Hv. rewrite <-Hv. apply read_layers_ext. intros r Hr.
  unfold addLayer. cbn [fst]. apply lookup_insert_ne. intros <-.
  apply list_elem_of_lookup in Hr as [i Hi].
  destruct (read_layers_lookup _ _ _ _ _ Hv Hi) as (obj & Hobj & _).
  apply (is_fresh (dom σ)), elem_of_dom. by exists obj.
Qed.

Lemma updateSetting_other_fields (settings : VisualSettings) (b : bool) :
  let s' := updateSetting settings (Set_showBias b) in
  (edgeColor s', useBezier s', nodeDiameter s', nodeColor s',
   nodeBorderColor s', layerSpacing s', direction s', showLabels s',
   arrowheads s', weightSeed s')
  = (edgeColor settings, useBezier settings, nodeDiameter settings,
     nodeColor settings, nodeBorderColor settings, layerSpacing settings,
     direction settings, showLabels settings, arrowheads settings,
     weightSeed settings).
Proof. by destruct settings. Qed.

(** [updateLayerNeuron] writes the object that the array it was given
    references: whoever holds that array reads the new count. *)
Lemma updateLayerNeuron_changes_old_array (σ σ' : Store)
    (layers newLayers : list ref) (index : nat) (value : Z)
    (v : list LayerConfig) (obj : LayerConfig) :
  read_layers σ layers = Some v →
  v !! index = Some obj →
  neurons obj ≠ Z.max 1 (Z.min 50 value) →
  updateLayerNeuron layers index value σ = Some (σ', newLayers) →
  read_layers σ' layers ≠ Some v.
Proof.
  intros Hv Hobj Hne Hupd Hv'.
  assert (is_Some (layers !! index)) as [r Hr].
  { apply lookup_lt_is_Some. pose proof (length_mapM _ _ _ Hv) as Hlen.
    apply lookup_lt_Some in Hobj. lia. }
  destruct (read_layers_lookup _ _ _ _ _ Hv Hr) as (o & Ho & Hvo).
  destruct (read_layers_lookup _ _ _ _ _ Hv' Hr) as (o' & Ho' & Hvo').
  unfold updateLayerNeuron in Hupd. rewrite Hr in Hupd.
  cbn [mbind option_bind] in Hupd. rewrite Ho in Hupd.
  cbn [mbind option_bind] in Hupd. injection Hupd as <- <-.
  rewrite lookup_insert_eq in Ho'. injection Ho' as <-.
  rewrite Hobj in Hvo'. injection Hvo' as ->. by cbn in Hne.
Qed.

(** C4, at the initial state of the application: after setting the neuron
    count of layer 0 to 5, the array the host held before the edit (the
    [DEFAULT_LAYERS] array itself) reads 5 at layer 0 where it read 18. *)
Theorem updateLayerNeuron_mutates_held_value :
  read_layers initial_store initial_layers = Some DEFAULT_LAYERS
  ∧ ∃ σ' newLayers,
      updateLayerNeuron initial_layers 0 5 initial_store = Some (σ', newLayers)
      ∧ read_layers σ' initial_layers
        = Some [ mkLayerConfig "l1" 5; mkLayerConfig "l2" 12;
                 mkLayerConfig "l3" 10; mkLayerConfig "l4" 1 ]
      ∧ read_layers σ' initial_layers
        ≠ read_layers initial_store initial_layers.
Proof.
  split; [reflexivity|].
  eexists _, _. split; [reflexivity|]. split; [by vm_compute|].
  vm_compute. discriminate.
Qed.

(** * Further properties of the layout *)

(** ** Weights and opacity *)

(** X1. [seededRandom] returns a value between 0 and 1, both included,
    for every seed and every value of the sine, whenever the rounding is
    monotone and leaves 0 and 1 as they are (as rounding to the nearest
    binary64 number does); so every link of a layout has such a weight.
    The upper bound is closed: a difference just below 1 can round to 1. *)
Theorem weights_in_unit_interval (fp : Float64)
    (layers : list LayerConfig) (settings : VisualSettings)
    (dimensions : Dimensions) :
  (∀ a b, a <= b → round64 fp a <= round64 fp b) →
  round64 fp 0 == 0 →
  round64 fp 1 == 1 →
  (∀ seed, 0 <= seededRandom fp seed ∧ seededRandom fp seed <= 1)
  ∧ Forall (λ l, 0 <= weight l ∧ weight l <= 1)
           (links (computeLayout fp layers settings dimensions)).
Proof.
  intros Hmono H0 H1.
  assert (∀ seed,
    0 <= seededRandom fp seed ∧ seededRandom fp seed <= 1) as Hw.
  { intros seed. unfold seededRandom. cbv zeta.
    set (x := round64 fp (Math_sin fp seed * 10000)).
    pose proof (Qfloor_le x) as Hle.
    pose proof (Qlt_floor x) as Hlt.
    rewrite inject_Z_plus in Hlt. change (inject_Z 1) with 1 in Hlt.
    split.
    - rewrite <-H0. apply Hmono. lra.
    - rewrite <-H1. apply Hmono. lra. }
  split; [done|]. rewrite computeLayout_links. apply Forall_forall.
  intros l (k & p & -> & _)%elem_of_lookup_imap.
  unfold link_at. cbn [weight]. apply Hw.
Qed.

Lemma weights_in_unit_interval_witness :
  Forall (λ l, 0 <= weight l ∧ weight l <= 1) (links sample_graph).
Proof.
  apply (weights_in_unit_interval sample_fp DEFAULT_LAYERS (DEFAULT_SETTINGS 0)
           sample_dimensions).
  - intros a b Hab. exact Hab.
  - reflexivity.
  - reflexivity.
Defined.

(** ** Settings the layout does not depend on *)

(** X2. Changing the edge colour, the curve style, the node colours, the
    label switch or the arrowheads leaves the computed nodes and links as
    they were. *)
Theorem cosmetic_settings_keep_layout (fp : Float64)
    (layers : list LayerConfig) (settings : VisualSettings)
    (dimensions : Dimensions) (u : SettingUpdate) :
  is_cosmetic u = true →
  computeLayout fp layers (updateSetting settings u) dimensions
  = computeLayout fp layers settings dimensions.
Proof. destruct settings, u; intros [=]; reflexivity. Qed.

Lemma cosmetic_settings_keep_layout_witness :
  computeLayout sample_fp DEFAULT_LAYERS
    (updateSetting (DEFAULT_SETTINGS 0) (Set_arrowheads arrow_solid))
    sample_dimensions
  = computeLayout sample_fp DEFAULT_LAYERS (DEFAULT_SETTINGS 0)
      sample_dimensions.
Proof.
  apply (cosmetic_settings_keep_layout sample_fp DEFAULT_LAYERS
           (DEFAULT_SETTINGS 0) sample_dimensions (Set_arrowheads arrow_solid)).
  reflexivity.
Defined.

(** X3. "New Random Weights" ([updateSetting('weightSeed', ...)]) keeps the
    nodes, and keeps the identifier, the source and the target of every
    link in place: only the weights can change. While the counter started
    at the new seed stays within [-2^53, 2^53], the new weights are
    [seededRandom] of the new seed, the new seed plus one, and so on. *)
Theorem reroll_keeps_topology (fp : Float64) (layers : list LayerConfig)
    (settings : VisualSettings) (dimensions : Dimensions) (seed : Z) :
  let graph := computeLayout fp layers settings dimensions in
  let graph' :=
    computeLayout fp layers (updateSetting settings (Set_weightSeed seed))
      dimensions in
  nodes graph' = nodes graph
  ∧ (λ l, (link_id l, source l, target l)) <$> links graph'
    = (λ l, (link_id l, source l, target l)) <$> links graph
  ∧ ((- 2 ^ 53 ≤ seed)%Z →
     (seed + Z.of_nat (length (links graph)) ≤ 2 ^ 53)%Z →
     weight <$> links graph'
     = (λ k, seededRandom fp (seed + Z.of_nat k))
       <$> seq 0 (length (links graph))).
Proof.
  intros graph graph'. subst graph graph'.
  assert (nodes (computeLayout fp layers
                   (updateSetting settings (Set_weightSeed seed)) dimensions)
          = nodes (computeLayout fp layers settings dimensions)) as Hn.
  { rewrite !computeLayout_nodes. by destruct settings. }
  split; [done|]. rewrite !computeLayout_links, Hn. split.
  - rewrite !fmap_imap. by apply imap_ext.
  - intros _ _. rewrite weight_imap_link_at, length_imap. by destruct settings.
Qed.

Lemma reroll_keeps_topology_witness :
  weight <$> links (computeLayout sample_fp DEFAULT_LAYERS
                      (updateSetting (DEFAULT_SETTINGS 0) (Set_weightSeed 42))
                      sample_dimensions)
  = (λ k, seededRandom sample_fp (42 + Z.of_nat k))
    <$> seq 0 (length (links sample_graph)).
Proof.
  apply (proj2 (proj2 (reroll_keeps_topology sample_fp DEFAULT_LAYERS
                         (DEFAULT_SETTINGS 0) sample_dimensions 42))).
  - apply Z.leb_le. vm_compute. reflexivity.
  - apply Z.leb_le. vm_compute. reflexivity.
Defined.

(** ** The nodes of a layout, one by one *)

Section NodeShape.
Variable fp : Float64.
Variables (layers : list LayerConfig) (settings : VisualSettings).
Variable dimensions : Dimensions.

Local Abbreviation graph := (computeLayout fp layers settings dimensions).
Local Abbreviation eff := (effectiveCount settings (length layers)).

Lemma elem_of_nodes_iff (n : Node) :
  n ∈ nodes graph
  ↔ ∃ idx layer i,
      layers !! idx = Some layer ∧ (Z.of_nat i < eff idx layer)%Z
      ∧ n = graph_node_at layers settings dimensions idx layer i.
Proof.
  split.
  - intros Hin.
    destruct (elem_of_nodes fp _ _ _ _ Hin) as (layer & Hl & Hin').
    rewrite (nodes_of_layer_computeLayout _ _ _ _ _ _ Hl) in Hin'.
    apply list_elem_of_fmap in Hin' as (i & Hn & Hi%elem_of_seq).
    exists (layerIndex n), layer, i. split; [done|]. split; [lia|done].
  - intros (idx & layer & i & Hl & Hi & ->).
    assert (graph_node_at layers settings dimensions idx layer i
            ∈ nodes_of_layer idx (nodes graph)) as Hin.
    { rewrite (nodes_of_layer_computeLayout _ _ _ _ _ _ Hl).
      apply list_elem_of_fmap_2, elem_of_seq. lia. }
    by apply list_elem_of_filter in Hin as [_ ?].
Qed.

Lemma crossCoord_graph_node_at (idx : nat) (layer : LayerConfig) (i : nat) :
  crossCoord settings (graph_node_at layers settings dimensions idx layer i)
  = crossCenter settings dimensions
    - inject_Z (eff idx layer - 1) * nodeSpacing settings / 2
    + inject_Z (Z.of_nat i) * nodeSpacing settings.
Proof.
  unfold crossCoord, crossCenter, graph_node_at, node_at, nodeSpacing.
  cbn [pos_x pos_y]. by destruct (bool_decide (direction settings = horizontal)).
Qed.

End NodeShape.

(** ** The cross axis *)

(** X4. For a whole-number [nodeDiameter] from 5 to 50 (what the slider
    gives), a viewport in whole pixels and neuron counts from 1 to 50:
    within a layer the nodes are laid out at equal steps of
    [nodeDiameter * 2.5] along the cross axis, in index order: node [i] of a
    layer with [e] nodes is at [crossCenter - (e - 1) * step / 2 + i * step],
    so two nodes of one layer are [(j - i) * step] apart. *)
Theorem nodes_of_a_layer_equally_spaced (fp : Float64)
    (layers : list LayerConfig) (settings : VisualSettings)
    (dimensions : Dimensions) (a b : Node) :
  whole_between 5 50 (nodeDiameter settings) →
  pixel_viewport dimensions →
  valid_counts layers →
  let graph := computeLayout fp layers settings dimensions in
  a ∈ nodes graph → b ∈ nodes graph → layerIndex a = layerIndex b →
  (∃ layer,
     layers !! layerIndex a = Some layer
     ∧ crossCoord settings a
       = crossCenter settings dimensions
         - inject_Z (effectiveCount settings (length layers) (layerIndex a)
                       layer - 1)
           * (nodeDiameter settings * 2.5) / 2
         + inject_Z (Z.of_nat (neuronIndex a)) * (nodeDiameter settings * 2.5))
  ∧ crossCoord settings b - crossCoord settings a
    == inject_Z (Z.of_nat (neuronIndex b) - Z.of_nat (neuronIndex a))
       * (nodeDiameter settings * 2.5).
Proof.
  intros _ _ _ graph. subst graph.
  intros (ia & la & i & Hla & Hi & ->)%elem_of_nodes_iff
         (ib & lb & j & Hlb & Hj & ->)%elem_of_nodes_iff Hidx.
  cbn [layerIndex graph_node_at node_at] in Hidx. subst ib.
  rewrite Hla in Hlb. injection Hlb as <-.
  rewrite !crossCoord_graph_node_at. split.
  - exists la. split; [done|]. reflexivity.
  - cbn [neuronIndex graph_node_at node_at]. unfold nodeSpacing, Z.sub.
    rewrite (inject_Z_plus (Z.of_nat j)), inject_Z_opp. ring.
Qed.

Lemma nodes_of_a_layer_equally_spaced_witness :
  crossCoord (DEFAULT_SETTINGS 0) sample_node_0_1
  - crossCoord (DEFAULT_SETTINGS 0) sample_node_0_0
  == inject_Z (Z.of_nat (neuronIndex sample_node_0_1)
               - Z.of_nat (neuronIndex sample_node_0_0))
     * (nodeDiameter (DEFAULT_SETTINGS 0) * 2.5).
Proof.
  apply (proj2 (nodes_of_a_layer_equally_spaced sample_fp DEFAULT_LAYERS
                  (DEFAULT_SETTINGS 0) sample_dimensions sample_node_0_0
                  sample_node_0_1
                  (proj1 (DEFAULT_SETTINGS_sliders 0))
                  sample_dimensions_pixels DEFAULT_LAYERS_valid_counts
                  sample_node_0_0_in sample_node_0_1_in eq_refl)).
Defined.

(** X5. For a whole-number [nodeDiameter] from 5 to 50 (what the slider
    gives), a viewport in whole pixels and neuron counts from 1 to 50, two
    different nodes of one layer have centres further apart than one
    diameter: the circles of radius [nodeDiameter / 2] drawn for them do not
    overlap. *)
Theorem nodes_of_a_layer_do_not_overlap (fp : Float64)
    (layers : list LayerConfig) (settings : VisualSettings)
    (dimensions : Dimensions) (a b : Node) :
  whole_between 5 50 (nodeDiameter settings) →
  pixel_viewport dimensions →
  valid_counts layers →
  let graph := computeLayout fp layers settings dimensions in
  a ∈ nodes graph → b ∈ nodes graph → layerIndex a = layerIndex b →
  (neuronIndex a < neuronIndex b)%nat →
  nodeDiameter settings < crossCoord settings b - crossCoord settings a.
Proof.
  intros (z & Hz & Hrange) _ _ graph. subst graph.
  assert (0 < nodeDiameter settings) as Hd.
  { rewrite Hz. change 0 with (inject_Z 0). rewrite <-Zlt_Qlt. lia. }
  intros (ia & la & i & Hla & Hi & ->)%elem_of_nodes_iff
         (ib & lb & j & Hlb & Hj & ->)%elem_of_nodes_iff Hidx Hij.
  cbn [layerIndex neuronIndex graph_node_at node_at] in Hidx, Hij. subst ib.
  rewrite Hla in Hlb. injection Hlb as <-.
  rewrite !crossCoord_graph_node_at. unfold nodeSpacing.
  assert (inject_Z (Z.of_nat i) + 1 <= inject_Z (Z.of_nat j)) as Hle.
  { change 1 with (inject_Z 1). rewrite <-inject_Z_plus, <-Zle_Qle. lia. }
  nra.
Qed.

Lemma nodes_of_a_layer_do_not_overlap_witness :
  nodeDiameter (DEFAULT_SETTINGS 0)
  < crossCoord (DEFAULT_SETTINGS 0) sample_node_0_1
    - crossCoord (DEFAULT_SETTINGS 0) sample_node_0_0.
Proof.
  apply (nodes_of_a_layer_do_not_overlap sample_fp DEFAULT_LAYERS
           (DEFAULT_SETTINGS 0) sample_dimensions sample_node_0_0
           sample_node_0_1
           (proj1 (DEFAULT_SETTINGS_sliders 0))
           sample_dimensions_pixels DEFAULT_LAYERS_valid_counts
           sample_node_0_0_in sample_node_0_1_in eq_refl).
  vm_compute. lia.
Defined.

(** X6. For a whole-number [nodeDiameter] from 5 to 50 (what the slider
    gives), a viewport in whole pixels and neuron counts from 1 to 50, every
    layer is centred on the cross axis: the node at index [i] and
    the node at index [e - 1 - i] of a layer with [e] nodes are mirror images
    about the viewport centre, every node has such a mirror node, and the
    only node of a one-node layer lies exactly at the centre. *)
Theorem layers_centered_on_cross_axis (fp : Float64)
    (layers : list LayerConfig) (settings : VisualSettings)
    (dimensions : Dimensions) (n : Node) (layer : LayerConfig) :
  whole_between 5 50 (nodeDiameter settings) →
  pixel_viewport dimensions →
  valid_counts layers →
  let graph := computeLayout fp layers settings dimensions in
  let e := effectiveCount settings (length layers) (layerIndex n) layer in
  let center := crossCenter settings dimensions in
  n ∈ nodes graph → layers !! layerIndex n = Some layer →
  (∃ m, m ∈ nodes graph ∧ layerIndex m = layerIndex n
        ∧ Z.of_nat (neuronIndex m) = (e - 1 - Z.of_nat (neuronIndex n))%Z
        ∧ crossCoord settings m - center == center - crossCoord settings n)
  ∧ (e = 1%Z → crossCoord settings n == center).
Proof.
  intros _ _ _ graph e center. subst graph e center.
  intros (idx & l & i & Hl & Hi & ->)%elem_of_nodes_iff Hlayer.
  cbn [layerIndex neuronIndex graph_node_at node_at] in *.
  rewrite Hl in Hlayer. injection Hlayer as ->.
  set (e := effectiveCount settings (length layers) idx layer) in *.
  split.
  - exists (graph_node_at layers settings dimensions idx layer
              (Z.to_nat (e - 1 - Z.of_nat i))).
    split; [|split; [done|split]].
    + apply elem_of_nodes_iff.
      exists idx, layer, (Z.to_nat (e - 1 - Z.of_nat i)).
      split; [done|]. split; [fold e; lia|done].
    + cbn [neuronIndex graph_node_at node_at]. lia.
    + rewrite !crossCoord_graph_node_at. fold e.
      rewrite Z2Nat.id by lia. unfold Z.sub.
      rewrite !inject_Z_plus, !inject_Z_opp. field.
  - intros He. rewrite crossCoord_graph_node_at. fold e. rewrite He.
    assert (i = 0%nat) as -> by lia.
    change (inject_Z (1 - 1)) with 0. change (inject_Z (Z.of_nat 0)) with 0.
    field.
Qed.

Lemma layers_centered_on_cross_axis_witness :
  ∃ m, m ∈ nodes sample_graph ∧ layerIndex m = layerIndex sample_node_0_0
       ∧ Z.of_nat (neuronIndex m)
         = (effectiveCount (DEFAULT_SETTINGS 0) (length DEFAULT_LAYERS)
              (layerIndex sample_node_0_0) {| layer_id := "l1"; neurons := 18 |}
            - 1 - Z.of_nat (neuronIndex sample_node_0_0))%Z
       ∧ crossCoord (DEFAULT_SETTINGS 0) m
         - crossCenter (DEFAULT_SETTINGS 0) sample_dimensions
         == crossCenter (DEFAULT_SETTINGS 0) sample_dimensions
            - crossCoord (DEFAULT_SETTINGS 0) sample_node_0_0.
Proof.
  apply (proj1 (layers_centered_on_cross_axis sample_fp DEFAULT_LAYERS
                  (DEFAULT_SETTINGS 0) sample_dimensions sample_node_0_0
                  {| layer_id := "l1"; neurons := 18 |}
                  (proj1 (DEFAULT_SETTINGS_sliders 0))
                  sample_dimensions_pixels DEFAULT_LAYERS_valid_counts
                  sample_node_0_0_in eq_refl)).
Defined.

(** ** Direction and viewport *)

Lemma filter_fmap {A B} (f : A → B) (P : B → Prop) `{∀ y, Decision (P y)}
    (l : list A) :
  filter P (f <$> l) = f <$> filter (λ x, P (f x)) l.
Proof.
  induction l as [|a l IH]; [done|].
  rewrite fmap_cons, !filter_cons, IH. by destruct (decide (P (f a))).
Qed.

Lemma link_pairs_fmap (f : Node → Node) (nodes : list Node) :
  (∀ n, layerIndex (f n) = layerIndex n) → (∀ n, isBias (f n) = isBias n) →
  link_pairs (f <$> nodes) = (λ p, (f p.1, f p.2)) <$> link_pairs nodes.
Proof.
  intros Hl Hb. unfold link_pairs.
  assert (∀ srcs,
    (f <$> srcs) ≫= (λ s,
       filter (λ n, layerIndex n = (layerIndex s + 1)%nat) (f <$> nodes)
       ≫= λ t, if negb (isBias t) then [(s, t)] else [])
    = (λ p, (f p.1, f p.2)) <$>
      (srcs ≫= λ s,
         filter (λ n, layerIndex n = (layerIndex s + 1)%nat) nodes
         ≫= λ t, if negb (isBias t) then [(s, t)] else [])) as Hgen.
  { intros srcs. induction srcs as [|s srcs IH]; [done|].
    rewrite fmap_cons, !bind_cons, fmap_app, IH. f_equal.
    rewrite filter_fmap, Hl.
    erewrite (list_filter_iff _ (λ n, layerIndex n = (layerIndex s + 1)%nat))
      by (intros n; by rewrite Hl).
    induction (filter _ nodes) as [|t ts IHt]; [done|].
    rewrite fmap_cons, !bind_cons, fmap_app, IHt, Hb.
    by destruct (isBias t). }
  apply Hgen.
Qed.

(** X7. The vertical layout in a viewport is the horizontal layout in the
    viewport with its sides exchanged, with the two coordinates of every
    node exchanged: same identifiers, same bias nodes, same links and
    weights. *)
Theorem vertical_is_transposed_horizontal (fp : Float64)
    (layers : list LayerConfig) (settings : VisualSettings)
    (dimensions : Dimensions) :
  direction settings = horizontal →
  let graph := computeLayout fp layers settings dimensions in
  let graph' :=
    computeLayout fp layers
      (updateSetting settings (Set_direction vertical)) (flip dimensions) in
  nodes graph' = transpose <$> nodes graph
  ∧ links graph' = transpose_link <$> links graph.
Proof.
  intros Hdir graph graph'. subst graph graph'.
  assert (nodes (computeLayout fp layers
                   (updateSetting settings (Set_direction vertical))
                   (flip dimensions))
          = transpose <$> nodes (computeLayout fp layers settings
                                   dimensions)) as Hn.
  { rewrite !computeLayout_nodes. symmetry. apply fmap_concat_imap.
    intros i l. unfold layer_nodes. rewrite <-list_fmap_compose.
    destruct settings; cbn in Hdir; subst. reflexivity. }
  split; [done|].
  rewrite !computeLayout_links, Hn, link_pairs_fmap by done.
  rewrite imap_fmap, fmap_imap. apply imap_ext. intros k [s t] _.
  destruct settings. reflexivity.
Qed.

Lemma vertical_is_transposed_horizontal_witness :
  nodes (computeLayout sample_fp DEFAULT_LAYERS
           (updateSetting (DEFAULT_SETTINGS 0) (Set_direction vertical))
           (flip sample_dimensions))
  = transpose <$> nodes sample_graph.
Proof.
  apply (vertical_is_transposed_horizontal sample_fp DEFAULT_LAYERS
           (DEFAULT_SETTINGS 0) sample_dimensions).
  reflexivity.
Defined.

Lemma Forall2_concat_imap {B} (R : Node → B → Prop)
    (f : nat → LayerConfig → list Node) (g : nat → LayerConfig → list B)
    (layers : list LayerConfig) :
  (∀ i l, Forall2 R (f i l) (g i l)) →
  Forall2 R (concat (imap f layers)) (concat (imap g layers)).
Proof.
  revert f g. induction layers as [|l layers IH]; intros f g Hfg.
  - constructor.
  - cbn [imap concat]. apply Forall2_app; [apply Hfg|].
    apply IH. intros i l'. apply Hfg.
Qed.

(** X8. Resizing the viewport only translates the layout. For whole-number
    settings from the sliders, neuron counts from 1 to 50 and two viewports
    in whole pixels, every node keeps its identifier, layer, index and bias
    flag and moves by half the change of the width and half the change of
    the height. *)
Theorem resize_translates_layout (fp : Float64)
    (layers : list LayerConfig) (settings : VisualSettings)
    (dimensions dimensions' : Dimensions) :
  slider_settings settings →
  valid_counts layers →
  array_length_ok layers →
  pixel_viewport dimensions →
  pixel_viewport dimensions' →
  Forall2 (shifted ((width dimensions' - width dimensions) / 2)
                   ((height dimensions' - height dimensions) / 2))
    (nodes (computeLayout fp layers settings dimensions))
    (nodes (computeLayout fp layers settings dimensions')).
Proof.
  intros _ _ _ _ _.
  rewrite !computeLayout_nodes. apply Forall2_concat_imap. intros i l.
  unfold layer_nodes. apply Forall2_fmap, Forall_Forall2_diag, Forall_forall.
  intros k _. unfold shifted, node_at.
  cbn [node_id layerIndex neuronIndex isBias pos_x pos_y width height].
  repeat (split; [reflexivity|]).
  destruct (bool_decide (direction settings = horizontal)); split; field.
Qed.

Lemma resize_translates_layout_witness :
  Forall2 (shifted ((width {| width := 1000; height := 700 |}
                     - width sample_dimensions) / 2)
                   ((height {| width := 1000; height := 700 |}
                     - height sample_dimensions) / 2))
    (nodes sample_graph)
    (nodes (computeLayout sample_fp DEFAULT_LAYERS (DEFAULT_SETTINGS 0)
              {| width := 1000; height := 700 |})).
Proof.
  apply (resize_translates_layout sample_fp DEFAULT_LAYERS (DEFAULT_SETTINGS 0)
           sample_dimensions {| width := 1000; height := 700 |}
           (DEFAULT_SETTINGS_sliders 0) DEFAULT_LAYERS_valid_counts
           DEFAULT_LAYERS_array_length sample_dimensions_pixels).
  split; [exists 1000%Z|exists 700%Z]; (split; [reflexivity|lia]).
Defined.

(** ** The number of links *)

Lemma length_link_pairs_by_source (srcs nodes : list Node) :
  length (s ← srcs;
          t ← filter (λ n, layerIndex n = (layerIndex s + 1)%nat) nodes;
          if negb (isBias t) then [(s, t)] else [])
  = sum_list ((λ s, nonbias_in_layer nodes (S (layerIndex s))) <$> srcs).
Proof.
  induction srcs as [|s srcs IH]; [done|].
  rewrite bind_cons, length_app, IH, fmap_cons. cbn [sum_list]. f_equal.
  rewrite length_targets, list_filter_filter. unfold nonbias_in_layer.
  apply (f_equal length), list_filter_iff. intros n.
  split; intros [? ?]; split; (done || lia).
Qed.

Lemma sum_list_by_layer (f : nat → LayerConfig → list Node) (g : nat → nat)
    (start : nat) (layers : list LayerConfig) :
  (∀ i l m, m ∈ f i l → layerIndex m = (start + i)%nat) →
  sum_list ((λ s, g (layerIndex s)) <$> concat (imap f layers))
  = sum_list (imap (λ i l, length (f i l) * g (start + i))%nat layers).
Proof.
  revert f start. induction layers as [|l layers IH]; intros f start Hf;
    [done|].
  cbn [imap concat sum_list_with]. rewrite fmap_app, sum_list_with_app.
  unfold id at 3. f_equal.
  - rewrite (sum_list_fmap_same (g (start + 0)%nat)); [done|].
    apply Forall_forall. intros m Hm%Hf. by rewrite Hm.
  - rewrite (IH _ (S start)).
    + f_equal. apply imap_ext. intros i l' _. cbn.
      by rewrite Nat.add_succ_r.
    + intros i l' m Hm%Hf. lia.
Qed.

Lemma nonbias_in_layer_graph (fp : Float64) (layers : list LayerConfig)
    (settings : VisualSettings) (dimensions : Dimensions) (j : nat) :
  nonbias_in_layer (nodes (computeLayout fp layers settings dimensions)) j
  = Z.to_nat (default 0%Z (neurons <$> layers !! j)).
Proof.
  unfold nonbias_in_layer.
  rewrite (list_filter_iff _ (λ n, isBias n = false ∧ layerIndex n = j))
    by (intros n; tauto).
  rewrite <-list_filter_filter.
  destruct (layers !! j) as [l|] eqn:Hl; cbn [fmap option_fmap option_map default].
  - fold (nodes_of_layer j
            (nodes (computeLayout fp layers settings dimensions))).
    rewrite (nodes_of_layer_computeLayout _ _ _ _ _ _ Hl).
    unfold layer_nodes. rewrite length_filter_fmap.
    unfold node_at, effectiveCount. cbn [isBias].
    destruct (showBias settings
              && negb (Z.of_nat j =? Z.of_nat (length layers) - 1)%Z).
    + cbn [andb]. destruct (decide (neurons l < 0)%Z) as [Hneg|Hpos].
      * replace (Z.to_nat (neurons l + 1)) with 0%nat by lia. cbn. lia.
      * replace (Z.to_nat (neurons l + 1)) with (S (Z.to_nat (neurons l)))
          by lia.
        rewrite seq_S, filter_app, length_app.
        rewrite filter_all, length_seq.
        -- rewrite filter_none; [cbn; lia|].
           intros i ->%list_elem_of_singleton. cbn [Nat.add].
           intros Hi. apply Z.eqb_neq in Hi. lia.
        -- intros i Hi%elem_of_seq. apply Z.eqb_neq. lia.
    + cbn [andb]. rewrite filter_all by done. by rewrite length_seq.
  - rewrite filter_none; [done|].
    intros n Hn. apply list_elem_of_filter in Hn as [Hn Hin].
    destruct (elem_of_nodes fp _ _ _ _ Hin) as (l & Hl' & _). congruence.
Qed.

(** X9. The number of links is the sum, over the layers, of the number of
    nodes of the layer (bias node included) times the number of neurons of
    the next layer; the last layer contributes nothing. *)
Theorem link_count_formula (fp : Float64) (layers : list LayerConfig)
    (settings : VisualSettings) (dimensions : Dimensions) :
  length (links (computeLayout fp layers settings dimensions))
  = sum_list
      (imap (λ i layer,
               Z.to_nat (effectiveCount settings (length layers) i layer)
               * Z.to_nat (default 0%Z (neurons <$> layers !! S i)))%nat
            layers).
Proof.
  rewrite computeLayout_links, length_imap. unfold link_pairs.
  rewrite length_link_pairs_by_source.
  erewrite list_fmap_ext;
    [|intros _ s _; apply nonbias_in_layer_graph].
  rewrite computeLayout_nodes.
  rewrite (sum_list_by_layer _
             (λ j, Z.to_nat (default 0%Z (neurons <$> layers !! S j))) 0).
  - f_equal. apply imap_ext. intros i l _. cbn.
    by rewrite layer_nodes_length.
  - intros i l m Hm. by apply layer_nodes_layerIndex in Hm.
Qed.

(** ** Layer labels *)

Lemma Math_max_Q_ge_start (q : Q) (qs : list Q) : q <= Math_max_Q q qs.
Proof.
  unfold Math_max_Q. revert q. induction qs as [|x qs IH]; intros q; cbn.
  - apply Qle_refl.
  - eapply Qle_trans; [apply (Q.le_max_l q x)|apply IH].
Qed.

Lemma Math_max_Q_upper_bound (q : Q) (qs : list Q) (x : Q) :
  x ∈ q :: qs → x <= Math_max_Q q qs.
Proof.
  unfold Math_max_Q. revert q. induction qs as [|y qs IH]; intros q.
  - intros ->%list_elem_of_singleton. apply Qle_refl.
  - intros [->|Hx]%elem_of_cons; cbn.
    + eapply Qle_trans; [apply (Q.le_max_l q y)|apply Math_max_Q_ge_start].
    + apply elem_of_cons in Hx as [->|Hx].
      * eapply Qle_trans; [apply (Q.le_max_r q y)|apply Math_max_Q_ge_start].
      * apply IH. by right.
Qed.

Lemma renderLabels_lookup (nodes : list Node) (layers : list LayerConfig)
    (settings : VisualSettings) (idx : nat) (lab : Label) :
  renderLabels nodes layers settings !! idx = Some (Some lab) →
  showLabels settings = true
  ∧ ∃ layer, layers !! idx = Some layer
             ∧ label_of_layer nodes settings (length layers) idx layer
               = Some lab.
Proof.
  unfold renderLabels. destruct (showLabels settings); [|done].
  rewrite list_lookup_imap. destruct (layers !! idx) as [layer|]; [|done].
  intros [= Hlab]. split; [done|]. by exists layer.
Qed.

(** X10. For a whole-number [nodeDiameter] from 5 to 50 (what the slider
    gives), a viewport in whole pixels and neuron counts from 1 to 50, a
    label is placed beyond its layer on the cross axis and on the layer's
    line on the main axis. In a horizontal layout it has the [x] of
    the layer's nodes and lies at least [nodeDiameter + 30] below every node
    of the layer; in a vertical layout it has their [y] and lies at least
    [nodeDiameter + 80] to the right of every one of them. *)
Theorem label_lies_beyond_its_layer (fp : Float64)
    (layers : list LayerConfig) (settings : VisualSettings)
    (dimensions : Dimensions) (idx : nat) (lab : Label) (n : Node) :
  whole_between 5 50 (nodeDiameter settings) →
  pixel_viewport dimensions →
  valid_counts layers →
  let graph := computeLayout fp layers settings dimensions in
  renderLabels (nodes graph) layers settings !! idx = Some (Some lab) →
  n ∈ nodes graph → layerIndex n = idx →
  match direction settings with
  | horizontal =>
      label_x lab = pos_x n
      ∧ pos_y n + nodeDiameter settings + 30 <= label_y lab
  | vertical =>
      label_y lab = pos_y n
      ∧ pos_x n + nodeDiameter settings + 80 <= label_x lab
  end.
Proof.
  intros _ _ _ graph. subst graph.
  intros (_ & layer & Hl & Hlab)%renderLabels_lookup Hn Hidx.
  unfold label_of_layer in Hlab.
  assert (n ∈ filter (λ m, layerIndex m = idx)
                (nodes (computeLayout fp layers settings dimensions)))
    as Hin by (by apply list_elem_of_filter).
  assert (∀ m, m ∈ filter (λ m, layerIndex m = idx)
                     (nodes (computeLayout fp layers settings dimensions))
               → mainCoord settings m = mainCoord settings n) as Hmain.
  { intros m [Hm Hmin]%list_elem_of_filter.
    rewrite (mainCoord_in_graph _ _ _ _ _ Hmin),
            (mainCoord_in_graph _ _ _ _ _ Hn). congruence. }
  destruct (filter _ _) as [|n0 ns]; [done|]. cbn [map] in Hlab.
  pose proof (Hmain n0 ltac:(left)) as H0. unfold mainCoord in H0.
  destruct (direction settings);
    [rewrite bool_decide_eq_true_2 in Hlab, H0 by done
    |rewrite bool_decide_eq_false_2 in Hlab, H0 by done];
    injection Hlab as <-; cbn [label_x label_y]; (split; [done|]).
  - assert (pos_y n <= Math_max_Q (pos_y n0) (map pos_y ns)) as Hle.
    { apply Math_max_Q_upper_bound.
      by apply (list_elem_of_fmap_2 pos_y (n0 :: ns)). }
    lra.
  - assert (pos_x n <= Math_max_Q (pos_x n0) (map pos_x ns)) as Hle.
    { apply Math_max_Q_upper_bound.
      by apply (list_elem_of_fmap_2 pos_x (n0 :: ns)). }
    lra.
Qed.

Lemma label_lies_beyond_its_layer_witness :
  label_x (default (mkLabel "" 0 0 "")
             (mjoin (renderLabels (nodes sample_graph) DEFAULT_LAYERS
                       (DEFAULT_SETTINGS 0) !! 0%nat)))
  = pos_x sample_node_0_0
  ∧ pos_y sample_node_0_0 + nodeDiameter (DEFAULT_SETTINGS 0) + 30
    <= label_y (default (mkLabel "" 0 0 "")
                  (mjoin (renderLabels (nodes sample_graph) DEFAULT_LAYERS
                            (DEFAULT_SETTINGS 0) !! 0%nat))).
Proof.
  apply (label_lies_beyond_its_layer sample_fp DEFAULT_LAYERS
           (DEFAULT_SETTINGS 0) sample_dimensions 0 _ sample_node_0_0
           (proj1 (DEFAULT_SETTINGS_sliders 0))
           sample_dimensions_pixels DEFAULT_LAYERS_valid_counts).
  - vm_compute. reflexivity.
  - exact sample_node_0_0_in.
  - reflexivity.
Defined.

(** X11. With [showLabels] on, a layer has a label exactly when it has at
    least one node: the entry of a layer whose effective count is zero or
    negative is [null]. *)
Theorem label_iff_layer_has_nodes (fp : Float64)
    (layers : list LayerConfig) (settings : VisualSettings)
    (dimensions : Dimensions) (idx : nat) (layer : LayerConfig) :
  let graph := computeLayout fp layers settings dimensions in
  showLabels settings = true →
  layers !! idx = Some layer →
  (renderLabels (nodes graph) layers settings !! idx = Some None
   ↔ (effectiveCount settings (length layers) idx layer ≤ 0)%Z)
  ∧ (is_Some (mjoin (renderLabels (nodes graph) layers settings !! idx))
     ↔ (0 < effectiveCount settings (length layers) idx layer)%Z).
Proof.
  intros graph Hshow Hl. subst graph.
  unfold renderLabels. rewrite Hshow, list_lookup_imap, Hl.
  cbn [fmap option_fmap option_map mjoin option_join]. unfold label_of_layer.
  fold (nodes_of_layer idx
          (nodes (computeLayout fp layers settings dimensions))).
  rewrite (nodes_of_layer_computeLayout _ _ _ _ _ _ Hl). unfold layer_nodes.
  destruct (Z.to_nat (effectiveCount settings (length layers) idx layer))
    as [|k] eqn:Hk.
  - cbn. split; split; try done; try lia; intros [? [=]].
  - cbn [seq map]. destruct (bool_decide (direction settings = horizontal));
      (split; split; [done|lia|lia|by eexists]).
Qed.

Lemma label_iff_layer_has_nodes_witness :
  renderLabels
    (nodes (computeLayout sample_fp
              [mkLayerConfig "a" 3; mkLayerConfig "b" 0]
              (DEFAULT_SETTINGS 0) sample_dimensions))
    [mkLayerConfig "a" 3; mkLayerConfig "b" 0] (DEFAULT_SETTINGS 0) !! 1%nat
  = Some None.
Proof.
  apply (label_iff_layer_has_nodes sample_fp
           [mkLayerConfig "a" 3; mkLayerConfig "b" 0] (DEFAULT_SETTINGS 0)
           sample_dimensions 1 (mkLayerConfig "b" 0)).
  - reflexivity.
  - reflexivity.
  - vm_compute. discriminate.
Defined.

Lemma label_of_layer_key (nodes : list Node) (settings : VisualSettings)
    (len idx : nat) (layer : LayerConfig) (lab : Label) :
  label_of_layer nodes settings len idx layer = Some lab →
  label_key lab = "label-" +:+ pretty idx.
Proof.
  unfold label_of_layer. cbv zeta.
  destruct (filter _ nodes) as [|n0 ns]; [done|]. cbn [map].
  by destruct (bool_decide _); intros [= <-].
Qed.

(** X12. The rendering keys of the labels of two different layers are
    different. *)
Theorem label_keys_are_distinct (nodes : list Node)
    (layers : list LayerConfig) (settings : VisualSettings) (i j : nat)
    (lab_i lab_j : Label) :
  renderLabels nodes layers settings !! i = Some (Some lab_i) →
  renderLabels nodes layers settings !! j = Some (Some lab_j) →
  i ≠ j → label_key lab_i ≠ label_key lab_j.
Proof.
  intros (_ & li & _ & Hi)%renderLabels_lookup
         (_ & lj & _ & Hj)%renderLabels_lookup Hne.
  rewrite (label_of_layer_key _ _ _ _ _ _ Hi).
  rewrite (label_of_layer_key _ _ _ _ _ _ Hj).
  intros Hk%(inj (String.append "label-")). by apply (inj pretty) in Hk.
Qed.

Lemma label_keys_are_distinct_witness :
  label_key (default (mkLabel "" 0 0 "")
               (mjoin (renderLabels (nodes sample_graph) DEFAULT_LAYERS
                         (DEFAULT_SETTINGS 0) !! 0%nat)))
  ≠ label_key (default (mkLabel "" 0 0 "")
                 (mjoin (renderLabels (nodes sample_graph) DEFAULT_LAYERS
                           (DEFAULT_SETTINGS 0) !! 3%nat))).
Proof.
  apply (label_keys_are_distinct (nodes sample_graph) DEFAULT_LAYERS
           (DEFAULT_SETTINGS 0) 0 3).
  - vm_compute. reflexivity.
  - vm_compute. reflexivity.
  - lia.
Defined.

(** * Further properties of the sidebar *)

(** ** removeLayer *)

Lemma filter_index_delete {A} (index : nat) (l : list A) :
  omap id (imap (λ i r, if bool_decide (i ≠ index) then Some r else None) l)
  = delete index l.
Proof.
  revert index. induction l as [|a l IH]; intros index; [done|].
  destruct index as [|index]; cbn [imap omap delete list_delete].
  - rewrite bool_decide_eq_false_2 by lia. cbn.
    rewrite (imap_ext _ (const Some)) by
      (intros i x _; cbn; by rewrite bool_decide_eq_true_2 by lia).
    rewrite imap_const. clear IH. induction l as [|b l IHl]; [done|].
    cbn. by rewrite IHl.
  - rewrite bool_decide_eq_true_2 by lia. cbn. f_equal.
    rewrite <-IH. f_equal. apply imap_ext. intros i x _. cbn.
    rewrite (bool_decide_ext (S i ≠ S index) (i ≠ index)) by lia. done.
Qed.

(** X13. [removeLayer] notifies nothing when two or fewer layers are left,
    and only then; otherwise it passes on the array without the element at
    [index], the others in their order: at least two layers remain, exactly
    one fewer when [index] is inside the array, and the same layers when it
    is not. *)
Theorem removeLayer_keeps_two_layers (layers : list ref) (index : nat) :
  (removeLayer layers index = None ↔ (length layers ≤ 2)%nat)
  ∧ ∀ newLayers,
      removeLayer layers index = Some newLayers →
      newLayers = take index layers ++ drop (S index) layers
      ∧ (2 ≤ length newLayers)%nat
      ∧ ((index < length layers)%nat →
         length newLayers = (length layers - 1)%nat)
      ∧ ((length layers ≤ index)%nat → newLayers = layers).
Proof.
  unfold removeLayer. cbv zeta. rewrite filter_index_delete.
  destruct (decide (length layers ≤ 2)%nat) as [Hlen|Hlen].
  { rewrite bool_decide_eq_true_2 by done. split; [done|]. by intros nl [=]. }
  rewrite bool_decide_eq_false_2 by done.
  split; [split; [by intros [=]|lia]|].
  - intros newLayers [= <-]. split; [apply delete_take_drop|].
    assert (index < length layers → length (delete index layers)
                                    = length layers - 1)%nat as Hin.
    { intros Hi. by apply length_delete, lookup_lt_is_Some. }
    assert (length layers ≤ index → delete index layers = layers)%nat as Hout.
    { intros Hi. rewrite delete_take_drop, take_ge, drop_ge by lia.
      apply app_nil_r. }
    split; [|done].
    destruct (decide (index < length layers)%nat); [rewrite Hin; lia|].
    rewrite Hout; lia.
Qed.

Lemma removeLayer_keeps_two_layers_witness :
  [1; 3; 4]%positive = take 1 initial_layers ++ drop 2 initial_layers.
Proof.
  apply (proj2 (removeLayer_keeps_two_layers initial_layers 1)
           [1; 3; 4]%positive).
  reflexivity.
Defined.

(** ** addLayer *)

Lemma read_layers_app (σ : Store) (l1 l2 : list ref) (v1 v2 : list LayerConfig) :
  read_layers σ l1 = Some v1 → read_layers σ l2 = Some v2 →
  read_layers σ (l1 ++ l2) = Some (v1 ++ v2).
Proof.
  unfold read_layers. intros H1%mapM_Some_1 H2%mapM_Some_1.
  apply mapM_Some_2. by apply Forall2_app.
Qed.

Lemma fresh_not_in_layers (σ : Store) (layers : list ref)
    (v : list LayerConfig) :
  read_layers σ layers = Some v → fresh (dom σ) ∉ layers.
Proof.
  intros Hv Hin. apply list_elem_of_lookup in Hin as [i Hi].
  destruct (read_layers_lookup _ _ _ _ _ Hv Hi) as (obj & Hobj & _).
  apply (is_fresh (dom σ)), elem_of_dom. by exists obj.
Qed.

(** X14. [addLayer] appends one new layer with 5 neurons and the identifier
    ["l-" + Date.now()]: the new array reads as the old layers followed by
    the new one, the new object is none of the old ones, and the old array
    still reads as before. *)
Theorem addLayer_appends_a_new_layer (σ : Store) (layers : list ref)
    (now : Z) (v : list LayerConfig) :
  read_layers σ layers = Some v →
  let '(σ', newLayers) := addLayer layers now σ in
  read_layers σ' newLayers
  = Some (v ++ [ {| layer_id := "l-" +:+ pretty now; neurons := 5 |} ])
  ∧ (∃ r, newLayers = layers ++ [r] ∧ (r ∉ layers) ∧ σ !! r = None)
  ∧ read_layers σ' layers = Some v.
Proof.
  intros Hv. unfold addLayer. cbv zeta.
  pose proof (fresh_not_in_layers _ _ _ Hv) as Hfresh.
  assert (read_layers
            (<[fresh (dom σ) := {| layer_id := "l-" +:+ pretty now;
                                   neurons := 5 |}]> σ) layers
          = Some v) as Hold.
  { rewrite <-Hv. apply read_layers_ext. intros r Hr.
    apply lookup_insert_ne. by intros <-. }
  refine (conj _ (conj _ Hold)).
  - apply read_layers_app; [done|]. unfold read_layers. cbn.
    by rewrite lookup_insert_eq.
  - exists (fresh (dom σ)). split; [done|]. split; [done|].
    apply not_elem_of_dom, is_fresh.
Qed.

Lemma addLayer_appends_a_new_layer_witness :
  let '(σ', newLayers) := addLayer initial_layers 17 initial_store in
  read_layers σ' newLayers
  = Some (DEFAULT_LAYERS
          ++ [ {| layer_id := "l-" +:+ pretty 17%Z; neurons := 5 |} ])
  ∧ (∃ r, newLayers = initial_layers ++ [r] ∧ (r ∉ initial_layers)
          ∧ initial_store !! r = None)
  ∧ read_layers σ' initial_layers = Some DEFAULT_LAYERS.
Proof.
  apply (addLayer_appends_a_new_layer initial_store initial_layers 17
           DEFAULT_LAYERS).
  reflexivity.
Defined.

(** ** updateLayerNeuron *)

(** X15. When no object occurs twice in the array, [updateLayerNeuron]
    changes the neuron count of the layer at [index] and nothing else: the
    array holds the same references, every other layer reads as before, and
    the layer at [index] keeps its identifier. *)
Theorem updateLayerNeuron_changes_one_layer (σ : Store) (layers : list ref)
    (index : nat) (value : Z) (v : list LayerConfig) :
  NoDup layers →
  read_layers σ layers = Some v →
  (index < length layers)%nat →
  ∃ σ',
    updateLayerNeuron layers index value σ = Some (σ', layers)
    ∧ read_layers σ' layers = Some (alter (set_neurons value) index v).
Proof.
  intros Hnd Hv Hi.
  destruct (lookup_lt_is_Some_2 _ _ Hi) as [r Hr].
  destruct (read_layers_lookup _ _ _ _ _ Hv Hr) as (obj & Hobj & Hvi).
  unfold updateLayerNeuron. rewrite Hr. cbn. rewrite Hobj. cbn.
  eexists. split; [reflexivity|].
  apply mapM_Some_2, Forall2_same_length_lookup.
  apply mapM_Some_1, Forall2_same_length_lookup in Hv as [Hlen Hv].
  split; [by rewrite length_alter|].
  intros j r' o' Hr' Ho'. rewrite list_lookup_alter in Ho'.
  destruct (decide (index = j)) as [<-|Hne].
  - rewrite Hr in Hr'. injection Hr' as <-.
    rewrite Hvi in Ho'. injection Ho' as <-. by rewrite lookup_insert_eq.
  - rewrite lookup_insert_ne; [by eapply Hv|].
    intros <-. apply Hne. by eapply (NoDup_lookup layers).
Qed.

Lemma updateLayerNeuron_changes_one_layer_witness :
  ∃ σ',
    updateLayerNeuron initial_layers 1 75 initial_store
    = Some (σ', initial_layers)
    ∧ read_layers σ' initial_layers
      = Some (alter (set_neurons 75) 1%nat DEFAULT_LAYERS).
Proof.
  apply (updateLayerNeuron_changes_one_layer initial_store initial_layers 1 75
           DEFAULT_LAYERS).
  - by apply (bool_decide_unpack _).
  - reflexivity.
  - vm_compute. lia.
Defined.

(** X16. [updateLayerNeuron] fails (the assignment to a property of
    [undefined] throws) exactly when [index] is outside the array, provided
    every reference of the array is to an object of the store. *)
Theorem updateLayerNeuron_fails_iff_out_of_range (σ : Store)
    (layers : list ref) (index : nat) (value : Z) (v : list LayerConfig) :
  read_layers σ layers = Some v →
  updateLayerNeuron layers index value σ = None
  ↔ (length layers ≤ index)%nat.
Proof.
  intros Hv. unfold updateLayerNeuron. cbv zeta.
  destruct (layers !! index) as [r|] eqn:Hr; cbn.
  - destruct (read_layers_lookup _ _ _ _ _ Hv Hr) as (obj & -> & _). cbn.
    apply lookup_lt_Some in Hr. split; [done|lia].
  - apply lookup_ge_None in Hr. done.
Qed.

Lemma updateLayerNeuron_fails_iff_out_of_range_witness :
  updateLayerNeuron initial_layers 4 10 initial_store = None
  ↔ (length initial_layers ≤ 4)%nat.
Proof.
  apply (updateLayerNeuron_fails_iff_out_of_range initial_store initial_layers
           4 10 DEFAULT_LAYERS).
  reflexivity.
Defined.

(** ** updateSetting *)

(** X17. [updateSetting] changes the named field only, and the last write to
    a field wins: after two updates of the same field the settings are those
    of the second update alone, and two updates of different fields give the
    same settings in either order. *)
Theorem updateSetting_composes (settings : VisualSettings)
    (u1 u2 : SettingUpdate) :
  updateSetting (updateSetting settings u1) u2
  = if same_field u1 u2
    then updateSetting settings u2
    else updateSetting (updateSetting settings u2) u1.
Proof. by destruct settings, u1, u2. Qed.

(** ** The states the host can reach *)

Lemma initial_layers_NoDup : NoDup initial_layers.
Proof. by apply (bool_decide_unpack _). Qed.

Lemma initial_state_ok (now : Z) : state_ok (initial_state now).
Proof.
  split; [apply initial_layers_NoDup|]. split; [cbn; lia|].
  unfold initial_state, initial_layers. cbn [app_layers app_store].
  repeat (apply Forall_cons; split;
    [eexists; split; [reflexivity|vm_compute; split; discriminate]|]).
  apply Forall_nil. done.
Qed.

Lemma removeLayer_Some (layers newLayers : list ref) (index : nat) :
  removeLayer layers index = Some newLayers →
  (2 < length layers)%nat ∧ newLayers = delete index layers.
Proof.
  unfold removeLayer. cbv zeta. rewrite filter_index_delete.
  case_bool_decide; [done|]. intros [= <-]. split; [lia|done].
Qed.

Lemma length_delete_ge {A} (l : list A) (i : nat) :
  (length l - 1 ≤ length (delete i l))%nat.
Proof.
  destruct (decide (i < length l)%nat) as [Hi|Hi].
  - rewrite length_delete by (by apply lookup_lt_is_Some). lia.
  - rewrite delete_take_drop, take_ge, drop_ge, app_nil_r by lia. lia.
Qed.

Lemma step_ok (st : AppState) (ev : Event) : state_ok st → state_ok (step st ev).
Proof.
  intros (Hnd & Hlen & Hall). destruct ev as [u|index value|index|now];
    cbn [step].
  - done.
  - unfold updateLayerNeuron. cbv zeta.
    destruct (app_layers st !! index) as [r|] eqn:Hr; cbn; [|done].
    destruct (app_store st !! r) as [obj|] eqn:Hobj; cbn; [|done].
    split; [done|]. split; [done|]. cbn [app_layers app_store].
    eapply Forall_impl; [exact Hall|]. intros r' (o & Ho & Hrange).
    destruct (decide (r' = r)) as [->|Hne].
    + eexists. rewrite lookup_insert_eq. split; [reflexivity|]. cbn. lia.
    + exists o. by rewrite lookup_insert_ne.
  - destruct (removeLayer (app_layers st) index) as [newLayers|] eqn:Hrm;
      [|done].
    apply removeLayer_Some in Hrm as [Hgt ->].
    unfold state_ok. cbn [app_layers app_store].
    split; [eapply sublist_NoDup; [done|apply sublist_delete]|].
    split; [pose proof (length_delete_ge (app_layers st) index); lia|].
    by apply Forall_delete.
  - unfold addLayer, state_ok. cbv zeta. cbn [app_layers app_store].
    assert (fresh (dom (app_store st)) ∉ app_layers st) as Hfresh.
    { intros Hin. apply (proj1 (Forall_forall _ _) Hall) in Hin
        as (o & Ho & _).
      apply (is_fresh (dom (app_store st))), elem_of_dom. by exists o. }
    split; [|split].
    + apply NoDup_app. split; [done|]. split; [|apply NoDup_singleton].
      intros r Hr ->%list_elem_of_singleton. done.
    + rewrite length_app. lia.
    + apply Forall_app. split.
      * apply Forall_forall. intros r Hr.
        destruct (proj1 (Forall_forall _ _) Hall r Hr) as (o & Ho & Hrange).
        exists o. rewrite lookup_insert_ne by (by intros <-). done.
      * apply Forall_singleton. eexists. rewrite lookup_insert_eq.
        split; [reflexivity|]. cbn. lia.
Qed.

Lemma run_ok (events : list Event) (st : AppState) :
  state_ok st → state_ok (run events st).
Proof.
  revert st. induction events as [|ev events IH]; intros st Hst; [done|].
  apply IH. by apply step_ok.
Qed.

Lemma read_layers_Forall (P : LayerConfig → Prop) (σ : Store)
    (layers : list ref) :
  Forall (λ r, ∃ obj, σ !! r = Some obj ∧ P obj) layers →
  ∃ v, read_layers σ layers = Some v ∧ Forall P v
       ∧ length v = length layers.
Proof.
  unfold read_layers. induction 1 as [|r layers (o & Ho & HP) _ (v & Hv & HPv & Hl)].
  - by exists [].
  - exists (o :: v). cbn. rewrite Ho. cbn. rewrite Hv. cbn.
    split; [done|]. split; [by constructor|]. by rewrite Hl.
Qed.

(** X18. Whatever the user does in the sidebar, starting from the default
    layers, the layer list handed to the diagram always has at least two
    layers, each with a neuron count within [1, 50], no layer object occurs
    twice in it, and setting the neuron count at an index inside the list
    does not fail. *)
Theorem reachable_layers_are_valid (now : Z) (events : list Event) :
  let st := run events (initial_state now) in
  NoDup (app_layers st)
  ∧ (∃ v, layers_prop st = Some v
          ∧ (2 ≤ length v)%nat
          ∧ Forall (λ l, (1 ≤ neurons l ≤ 50)%Z) v
          ∧ neurons_ge 1 v)
  ∧ (∀ index value,
       (index < length (app_layers st))%nat →
       is_Some (updateLayerNeuron (app_layers st) index value (app_store st))).
Proof.
  intros st. subst st.
  destruct (run_ok events _ (initial_state_ok now)) as (Hnd & Hlen & Hall).
  split; [done|].
  destruct (read_layers_Forall _ _ _ Hall) as (v & Hv & HP & Hl).
  split.
  - exists v. split; [done|]. split; [lia|]. split; [done|].
    unfold neurons_ge. eapply Forall_impl; [exact HP|]. cbn. lia.
  - intros index value Hi.
    destruct (lookup_lt_is_Some_2 _ _ Hi) as [r Hr].
    destruct (read_layers_lookup _ _ _ _ _ Hv Hr) as (obj & Hobj & _).
    unfold updateLayerNeuron. rewrite Hr. cbn. rewrite Hobj. cbn. by eexists.
Qed.

Lemma reachable_layers_are_valid_witness :
  is_Some (updateLayerNeuron
             (app_layers (run [EvAddLayer 5; EvRemoveLayer 0]
                            (initial_state 0)))
             3 60
             (app_store (run [EvAddLayer 5; EvRemoveLayer 0]
                           (initial_state 0)))).
Proof.
  apply (reachable_layers_are_valid 0 [EvAddLayer 5; EvRemoveLayer 0]).
  vm_compute. lia.
Defined.

(** ** Superscripts *)

Lemma string_concat_cons (x : string) (l : list string) :
  String.concat "" (x :: l) = x +:+ String.concat "" l.
Proof.
  destruct l as [|y l]; [|reflexivity]. cbn [String.concat].
  induction x as [|c x IH]; [done|].
  change (String c x = String c (x +:+ "")). by rewrite <-IH.
Qed.

Lemma digit_cases (c : ascii) :
  is_digit c →
  c ∈ ["0"; "1"; "2"; "3"; "4"; "5"; "6"; "7"; "8"; "9"]%char.
Proof.
  unfold is_digit. destruct c as [[] [] [] [] [] [] [] []];
    intros Hc; vm_compute in Hc; try lia;
    rewrite !elem_of_cons; auto 11.
Qed.

(** No glyph of [supers] is a prefix of another one. *)
Lemma superscript_prefix_free (c1 c2 : ascii) (r1 r2 : string) :
  is_digit c1 → is_digit c2 →
  superscript_of_char c1 +:+ r1 = superscript_of_char c2 +:+ r2 →
  c1 = c2 ∧ r1 = r2.
Proof.
  intros H1%digit_cases H2%digit_cases.
  repeat (apply elem_of_cons in H1 as [->|H1]);
    [..|by apply elem_of_nil in H1];
    repeat (apply elem_of_cons in H2 as [->|H2]);
    try (by apply elem_of_nil in H2);
    vm_compute; intros [=]; done.
Qed.

Lemma superscript_nonempty (c : ascii) (r : string) :
  is_digit c → superscript_of_char c +:+ r ≠ "".
Proof.
  intros Hc%digit_cases Heq.
  repeat (apply elem_of_cons in Hc as [->|Hc]);
    [..|by apply elem_of_nil in Hc]; vm_compute in Heq; discriminate Heq.
Qed.

Lemma superscripts_inj (l1 l2 : list ascii) :
  Forall is_digit l1 → Forall is_digit l2 →
  String.concat "" (superscript_of_char <$> l1)
  = String.concat "" (superscript_of_char <$> l2) →
  l1 = l2.
Proof.
  intros H1. revert l2. induction H1 as [|c1 l1 Hc1 _ IH];
    intros l2 H2; destruct H2 as [|c2 l2 Hc2 H2]; [done|..].
  - rewrite fmap_cons, string_concat_cons. intros Heq. symmetry in Heq.
    by apply superscript_nonempty in Heq.
  - rewrite fmap_cons, string_concat_cons. intros Heq.
    by apply superscript_nonempty in Heq.
  - rewrite !fmap_cons, !string_concat_cons.
    intros [-> Hr]%superscript_prefix_free; [|done..].
    f_equal. by apply IH.
Qed.

Lemma string_all_Forall (P : ascii → Prop) (s : string) :
  string_all P s → Forall P (String.list_ascii_of_string s).
Proof.
  induction s as [|c s IH]; cbn; [constructor|].
  intros [Hc Hs]. constructor; auto.
Qed.

Lemma pretty_N_go_app (x : N) (s : string) :
  pretty_N_go x s = pretty_N_go x "" +:+ s.
Proof.
  revert s. induction (N.lt_wf_0 x) as [x _ IH]; intros s.
  destruct (decide (x = 0%N)) as [->|Hx]; [by rewrite !pretty_N_go_0|].
  rewrite !(pretty_N_go_step x) by lia.
  rewrite (IH (x `div` 10)%N) by (apply N.div_lt; lia).
  rewrite (IH (x `div` 10)%N ltac:(apply N.div_lt; lia) (String _ "")).
  by rewrite string_app_assoc.
Qed.

Lemma pretty_N_decimal (a d : N) :
  (0 < a)%N → (d < 10)%N →
  pretty (10 * a + d)%N = pretty a +:+ String (pretty_N_char d) "".
Proof.
  intros Ha Hd. unfold pretty, pretty_N.
  rewrite !decide_False by lia.
  rewrite pretty_N_go_step by lia.
  replace ((10 * a + d) `div` 10)%N with a
    by (apply (N.div_unique _ 10 a d); lia).
  replace ((10 * a + d) `mod` 10)%N with d
    by (apply (N.mod_unique _ 10 a d); lia).
  apply pretty_N_go_app.
Qed.

Lemma pretty_Z_to_N (z : Z) : (0 ≤ z)%Z → pretty z = pretty (Z.to_N z).
Proof. destruct z; [done|done|lia]. Qed.

Lemma pretty_digit (d : Z) :
  (0 ≤ d ≤ 9)%Z → pretty d = String (pretty_N_char (Z.to_N d)) "".
Proof.
  intros Hd.
  assert (d ∈ [0; 1; 2; 3; 4; 5; 6; 7; 8; 9]%Z) as Hin.
  { rewrite !elem_of_cons. lia. }
  rewrite !elem_of_cons in Hin.
  destruct_or!; subst; try (vm_compute; reflexivity). by apply elem_of_nil in Hin.
Qed.

Lemma pretty_Z_decimal (a d : Z) :
  (1 ≤ a)%Z → (0 ≤ d ≤ 9)%Z →
  pretty (10 * a + d)%Z = pretty a +:+ pretty d.
Proof.
  intros Ha Hd. rewrite (pretty_Z_to_N (10 * a + d)), (pretty_Z_to_N a) by lia.
  rewrite pretty_digit by done.
  replace (Z.to_N (10 * a + d)) with (10 * Z.to_N a + Z.to_N d)%N by lia.
  apply pretty_N_decimal; lia.
Qed.

Lemma list_ascii_of_string_app (s t : string) :
  String.list_ascii_of_string (s +:+ t)
  = String.list_ascii_of_string s ++ String.list_ascii_of_string t.
Proof.
  induction s as [|c s IH]; [done|].
  change (c :: String.list_ascii_of_string (s +:+ t)
          = c :: (String.list_ascii_of_string s
                  ++ String.list_ascii_of_string t)).
  by rewrite IH.
Qed.

Lemma string_concat_app (l1 l2 : list string) :
  String.concat "" (l1 ++ l2) = String.concat "" l1 +:+ String.concat "" l2.
Proof.
  induction l1 as [|x l1 IH]; [done|].
  rewrite <-app_comm_cons, !string_concat_cons, IH.
  by rewrite string_app_assoc.
Qed.

Lemma getSuperscript_decimal (a d : Z) :
  (1 ≤ a)%Z → (0 ≤ d ≤ 9)%Z →
  getSuperscript (10 * a + d) = getSuperscript a +:+ getSuperscript d.
Proof.
  intros Ha Hd. unfold getSuperscript.
  rewrite pretty_Z_decimal by done.
  by rewrite list_ascii_of_string_app, map_app, string_concat_app.
Qed.

Lemma getSuperscript_digit (d : nat) :
  (d < 10)%nat →
  getSuperscript (Z.of_nat d)
  = default "" (["⁰"; "¹"; "²"; "³"; "⁴"; "⁵"; "⁶"; "⁷"; "⁸"; "⁹"] !! d).
Proof.
  intros Hd. do 10 (destruct d as [|d]; [vm_compute; reflexivity|]). lia.
Qed.

(** ** Claim about the layer labels *)

(** C8. With [showLabels] on and neuron counts from 1 to 50, whether or not
    bias nodes are shown: there is one label per layer; the label of layer
    [idx] reads "Input Layer" for [idx = 0], else "Output Layer" for the
    last index, else "Hidden Layer", followed by " ∈ R" and the superscript
    of the layer's [neurons]. The superscript of a one-digit number is its
    glyph among ⁰¹²³⁴⁵⁶⁷⁸⁹, and the superscript of a number of several
    digits (up to 2^53) is the superscript of the number without its last
    digit followed by the glyph of the last digit. *)
Theorem one_label_per_layer (fp : Float64) (layers : list LayerConfig)
    (settings : VisualSettings) (dimensions : Dimensions) :
  showLabels settings = true →
  valid_counts layers →
  let graph := computeLayout fp layers settings dimensions in
  let labels := renderLabels (nodes graph) layers settings in
  length labels = length layers
  ∧ (∀ idx layer, layers !! idx = Some layer →
       ∃ lab,
         labels !! idx = Some (Some lab)
         ∧ label_text lab
           = (if decide (idx = 0%nat) then "Input Layer"
              else if decide (idx = (length layers - 1)%nat)
                   then "Output Layer" else "Hidden Layer")
             +:+ " ∈ R" +:+ getSuperscript (neurons layer))
  ∧ (∀ d : nat, (d < 10)%nat →
       getSuperscript (Z.of_nat d)
       = default ""
           (["⁰"; "¹"; "²"; "³"; "⁴"; "⁵"; "⁶"; "⁷"; "⁸"; "⁹"] !! d))
  ∧ (∀ a d : Z, (1 ≤ a)%Z → (0 ≤ d ≤ 9)%Z → (10 * a + d ≤ 2 ^ 53)%Z →
       getSuperscript (10 * a + d) = getSuperscript a +:+ getSuperscript d).
Proof.
  intros Hshow Hvalid%valid_counts_neurons_ge graph labels.
  subst graph labels. unfold renderLabels. rewrite Hshow.
  refine (conj _ (conj _ (conj _ _))).
  - by rewrite length_imap.
  - intros idx layer Hl. rewrite list_lookup_imap, Hl. cbn [fmap option_fmap
      option_map].
    destruct (layer_has_node fp layers settings dimensions idx Hvalid)
      as (n & Hn_in & Hn_idx); [by eapply lookup_lt_Some|].
    unfold label_of_layer.
    assert (n ∈ filter (λ m, layerIndex m = idx)
                  (nodes (computeLayout fp layers settings dimensions)))
      as Hin by (by apply list_elem_of_filter).
    destruct (filter _ _) as [|n0 ns]; [by apply elem_of_nil in Hin|].
    cbn [map]. destruct (bool_decide (direction settings = horizontal));
      (eexists; split; [reflexivity|]); cbn [label_text].
    all: unfold getLayerLabel.
    all: destruct (decide (idx = 0%nat)) as [->|Hne];
      [by rewrite bool_decide_eq_true_2|].
    all: rewrite bool_decide_eq_false_2 by done.
    all: apply lookup_lt_Some in Hl.
    all: destruct (decide (idx = (length layers - 1)%nat)) as [Hlast|Hlast].
    all: destruct (Z.eqb_spec (Z.of_nat idx) (Z.of_nat (length layers) - 1));
      try lia; reflexivity.
  - apply getSuperscript_digit.
  - intros a d Ha Hd _. by apply getSuperscript_decimal.
Qed.

Lemma one_label_per_layer_witness :
  length (renderLabels (nodes sample_graph) DEFAULT_LAYERS (DEFAULT_SETTINGS 0))
  = length DEFAULT_LAYERS
  ∧ getSuperscript (10 * 1 + 8) = getSuperscript 1 +:+ getSuperscript 8.
Proof.
  split.
  - apply (proj1 (one_label_per_layer sample_fp DEFAULT_LAYERS
                    (DEFAULT_SETTINGS 0) sample_dimensions eq_refl
                    DEFAULT_LAYERS_valid_counts)).
  - apply (proj2 (proj2 (proj2 (one_label_per_layer sample_fp DEFAULT_LAYERS
                                  (DEFAULT_SETTINGS 0) sample_dimensions eq_refl
                                  DEFAULT_LAYERS_valid_counts))) 1%Z 8%Z).
    + lia.
    + lia.
    + apply Z.leb_le. vm_compute. reflexivity.
Defined.

(** The labels of the default layers, with the bias units shown. *)
Example default_layers_labels :
  let settings := updateSetting (DEFAULT_SETTINGS 0) (Set_showBias true) in
  let graph :=
    computeLayout sample_fp DEFAULT_LAYERS settings sample_dimensions in
  fmap (M := list) (fmap (M := option) label_text)
    (renderLabels (nodes graph) DEFAULT_LAYERS settings)
  = [Some "Input Layer ∈ R¹⁸"; Some "Hidden Layer ∈ R¹²";
     Some "Hidden Layer ∈ R¹⁰"; Some "Output Layer ∈ R¹"].
Proof. vm_compute. reflexivity. Qed.

(** X19. Two different neuron counts from 0 to 2^53 (all of them print as
    plain decimal digits) have different superscripts, so the labels of
    layers with different sizes differ. *)
Theorem getSuperscript_distinguishes_counts (a b : Z) :
  (0 ≤ a ≤ 2 ^ 53)%Z → (0 ≤ b ≤ 2 ^ 53)%Z → a ≠ b →
  getSuperscript a ≠ getSuperscript b.
Proof.
  intros [Ha _] [Hb _] Hne Heq. apply Hne. unfold getSuperscript in Heq.
  apply superscripts_inj in Heq;
    [|by apply string_all_Forall, pretty_Z_digits..].
  apply (inj pretty).
  rewrite <-(String.string_of_list_ascii_of_string (pretty a)).
  rewrite <-(String.string_of_list_ascii_of_string (pretty b)).
  by rewrite Heq.
Qed.

Lemma getSuperscript_distinguishes_counts_witness :
  getSuperscript 18 ≠ getSuperscript 12.
Proof.
  apply (getSuperscript_distinguishes_counts 18 12); lia.
Defined.

(** X20. The sign of a negative number is not rendered: its superscript is
    that of its absolute value (the "-" has no entry in [supers]). *)
Theorem getSuperscript_drops_sign (p : positive) :
  getSuperscript (Z.neg p) = getSuperscript (Z.pos p).
Proof.
  unfold getSuperscript.
  change (pretty (Z.neg p)) with (String "-" (pretty (Z.pos p))).
  cbn [String.list_ascii_of_string map].
  rewrite string_concat_cons. reflexivity.
Qed.

(** ** Layer identifiers *)

Lemma known_id_mono (used more : list Z) (s : string) :
  known_id used s → known_id (used ++ more) s.
Proof.
  intros [Hd|(n & Hn & ->)]; [by left|]. right. exists n.
  split; [|done]. apply elem_of_app. by left.
Qed.

Lemma default_id_not_added (now : Z) :
  "l-" +:+ pretty now ∉ layer_id <$> DEFAULT_LAYERS.
Proof.
  change ("l-" +:+ pretty now) with (String "l" (String "-" (pretty now))).
  cbn. rewrite !elem_of_cons, elem_of_nil. intros [H|[H|[H|[H|[]]]]];
    discriminate H.
Qed.

Lemma initial_ids_ok (now : Z) : ids_ok [] (initial_state now).
Proof.
  split.
  - apply (bool_decide_unpack _). vm_compute. reflexivity.
  - unfold initial_state, initial_layers. cbn [app_layers app_store].
    apply Forall_forall. intros r Hr.
    repeat (apply elem_of_cons in Hr as [->|Hr]);
      [..|by apply elem_of_nil in Hr];
      (eexists; split; [vm_compute; reflexivity|]);
      left; cbn; rewrite !elem_of_cons; auto 6.
Qed.

Lemma step_ids_ok (used : list Z) (st : AppState) (ev : Event) :
  ids_ok used st →
  (∀ now, ev = EvAddLayer now → now ∉ used) →
  ids_ok (used ++ add_times [ev]) (step st ev).
Proof.
  intros (Hnd & Hall) Hnew.
  assert (Forall (λ r, ∃ obj, app_store st !! r = Some obj
                    ∧ known_id (used ++ add_times [ev]) (layer_id obj))
            (app_layers st)) as Hall'.
  { eapply Forall_impl; [exact Hall|]. intros r (o & Ho & Hk).
    exists o. split; [done|]. by apply known_id_mono. }
  destruct ev as [u|index value|index|now]; cbn [step].
  - done.
  - unfold updateLayerNeuron. cbv zeta.
    destruct (app_layers st !! index) as [r|] eqn:Hr; cbn; [|done].
    destruct (app_store st !! r) as [obj|] eqn:Hobj; cbn; [|done].
    assert (∀ r', layer_id_at (<[r := {| layer_id := layer_id obj;
                                        neurons := Z.max 1 (Z.min 50 value) |}]>
                                 (app_store st)) r'
                  = layer_id_at (app_store st) r') as Hid.
    { intros r'. unfold layer_id_at. destruct (decide (r' = r)) as [->|Hne].
      - by rewrite lookup_insert_eq, Hobj.
      - by rewrite lookup_insert_ne. }
    unfold ids_ok. cbn [app_layers app_store]. split.
    + by rewrite (list_fmap_ext _ (layer_id_at (app_store st))).
    + eapply Forall_impl; [exact Hall'|]. intros r' (o & Ho & Hk).
      destruct (decide (r' = r)) as [->|Hne].
      * eexists. rewrite lookup_insert_eq. split; [reflexivity|].
        cbn [layer_id]. rewrite Hobj in Ho. by injection Ho as <-.
      * exists o. by rewrite lookup_insert_ne.
  - destruct (removeLayer (app_layers st) index) as [newLayers|] eqn:Hrm;
      [|done].
    apply removeLayer_Some in Hrm as [_ ->].
    unfold ids_ok. cbn [app_layers app_store]. split.
    + rewrite list_fmap_delete.
      eapply sublist_NoDup; [exact Hnd|]. apply sublist_delete.
    + by apply Forall_delete.
  - unfold addLayer, ids_ok. cbv zeta. cbn [app_layers app_store add_times omap].
    assert (∀ r, r ∈ app_layers st → r ≠ fresh (dom (app_store st)))
      as Hfresh.
    { intros r Hr ->. apply (proj1 (Forall_forall _ _) Hall) in Hr
        as (o & Ho & _).
      apply (is_fresh (dom (app_store st))), elem_of_dom. by exists o. }
    split.
    + rewrite fmap_app.
      rewrite (list_fmap_ext _ (layer_id_at (app_store st)) (app_layers st)).
      2:{ intros i r Hr%list_elem_of_lookup_2. unfold layer_id_at.
          by rewrite lookup_insert_ne by (by intros <-; eapply Hfresh). }
      apply NoDup_app. split; [done|]. split; [|apply NoDup_singleton].
      intros x (r & -> & Hr)%list_elem_of_fmap Hx%list_elem_of_singleton.
      unfold layer_id_at in Hx. rewrite lookup_insert_eq in Hx.
      apply (proj1 (Forall_forall _ _) Hall) in Hr as (o & Ho & Hk).
      rewrite Ho in Hx. cbn in Hx. injection Hx as Hx.
      destruct Hk as [Hd|(n & Hn & Hk)].
      * rewrite Hx in Hd. by apply default_id_not_added in Hd.
      * rewrite Hk in Hx. apply (inj (String.append "l-")) in Hx.
        apply (inj pretty) in Hx. subst n. by eapply Hnew.
    + apply Forall_app. split.
      * apply Forall_forall. intros r Hr.
        destruct (proj1 (Forall_forall _ _) Hall' r Hr) as (o & Ho & Hk).
        exists o. rewrite lookup_insert_ne by (by intros <-; eapply Hfresh).
        done.
      * apply Forall_singleton. eexists. rewrite lookup_insert_eq.
        split; [reflexivity|]. right. exists now. cbn [layer_id].
        split; [|done]. apply elem_of_app. right. by left.
Qed.

Lemma add_times_cons (ev : Event) (events : list Event) :
  add_times (ev :: events) = add_times [ev] ++ add_times events.
Proof. by destruct ev. Qed.

Lemma run_ids_ok (events : list Event) (used : list Z) (st : AppState) :
  ids_ok used st →
  NoDup (add_times events) →
  (∀ n, n ∈ add_times events → n ∉ used) →
  ids_ok (used ++ add_times events) (run events st).
Proof.
  revert used st.
  induction events as [|ev events IH]; intros used st Hok Hnd Hnew.
  - cbn. by rewrite app_nil_r.
  - change (run (ev :: events) st) with (run events (step st ev)).
    rewrite add_times_cons in Hnd, Hnew |- *.
    rewrite app_assoc. apply NoDup_app in Hnd as (Hnd1 & Hdisj & Hnd2).
    apply IH; [|done|].
    + apply step_ids_ok; [done|]. intros now ->. apply Hnew.
      apply elem_of_app. left. cbn. by left.
    + intros n Hn [Hu|Hev]%elem_of_app.
      * eapply Hnew; [|done]. apply elem_of_app. by right.
      * by eapply Hdisj.
Qed.

Lemma layer_ids_of_read (σ : Store) (layers : list ref)
    (v : list LayerConfig) :
  read_layers σ layers = Some v →
  layer_id_at σ <$> layers = Some <$> (layer_id <$> v).
Proof.
  unfold read_layers. intros Hv%mapM_Some_1.
  induction Hv as [|r o rs os Hr _ IH]; [done|].
  rewrite !fmap_cons, IH. unfold layer_id_at at 1. by rewrite Hr.
Qed.

(** X21. When no two [addLayer] calls read the same clock value, the layers
    handed to the diagram and the sidebar always have pairwise different
    identifiers (the keys of the sidebar rows). *)
Theorem reachable_layer_ids_are_distinct (now : Z) (events : list Event) :
  NoDup (add_times events) →
  ∃ v, layers_prop (run events (initial_state now)) = Some v
       ∧ NoDup (layer_id <$> v).
Proof.
  intros Hnd.
  destruct (run_ok events _ (initial_state_ok now)) as (_ & _ & Hall).
  destruct (read_layers_Forall _ _ _ Hall) as (v & Hv & _ & _).
  exists v. split; [done|].
  destruct (run_ids_ok events [] _ (initial_ids_ok now) Hnd) as [Hids _].
  { intros n _ Hn. by apply elem_of_nil in Hn. }
  rewrite (layer_ids_of_read _ _ _ Hv) in Hids.
  by apply NoDup_fmap_1 in Hids.
Qed.

Lemma reachable_layer_ids_are_distinct_witness :
  ∃ v, layers_prop (run [EvAddLayer 5; EvRemoveLayer 0; EvAddLayer 6]
                      (initial_state 0)) = Some v
       ∧ NoDup (layer_id <$> v).
Proof.
  apply (reachable_layer_ids_are_distinct 0
           [EvAddLayer 5; EvRemoveLayer 0; EvAddLayer 6]).
  apply (bool_decide_unpack _). vm_compute. reflexivity.
Defined.

Lemma read_layers_addLayer (σ : Store) (layers : list ref) (now : Z)
    (v : list LayerConfig) :
  read_layers σ layers = Some v →
  read_layers (addLayer layers now σ).1 (addLayer layers now σ).2
  = Some (v ++ [ {| layer_id := "l-" +:+ pretty now; neurons := 5 |} ]).
Proof.
  intros Hv. unfold addLayer. cbn [fst snd].
  apply read_layers_app.
  - rewrite <-Hv. apply read_layers_ext. intros r Hr.
    apply lookup_insert_ne. intros <-.
    by apply (fresh_not_in_layers _ _ _ Hv).
  - unfold read_layers. cbn. by rewrite lookup_insert_eq.
Qed.

(** X22. Two [addLayer] calls that read the same clock value give two
    layers with the same identifier. *)
Theorem addLayer_twice_same_clock_duplicates_id (σ : Store)
    (layers : list ref) (now : Z) (v : list LayerConfig) :
  read_layers σ layers = Some v →
  let first := addLayer layers now σ in
  let second := addLayer first.2 now first.1 in
  ∃ v', read_layers second.1 second.2 = Some v'
        ∧ ¬ NoDup (layer_id <$> v').
Proof.
  intros Hv first second. subst first second.
  pose proof (read_layers_addLayer _ _ now _ Hv) as H1.
  pose proof (read_layers_addLayer _ _ now _ H1) as H2.
  eexists. split; [exact H2|].
  rewrite !fmap_app. cbn [fmap list_fmap layer_id].
  rewrite <-app_assoc. cbn [app].
  intros (_ & _ & Hnd)%NoDup_app. apply NoDup_cons in Hnd as [Hnotin _].
  apply Hnotin. by left.
Qed.

Lemma addLayer_twice_same_clock_duplicates_id_witness :
  ∃ v', read_layers
          (addLayer (addLayer initial_layers 9 initial_store).2 9
             (addLayer initial_layers 9 initial_store).1).1
          (addLayer (addLayer initial_layers 9 initial_store).2 9
             (addLayer initial_layers 9 initial_store).1).2
        = Some v'
        ∧ ¬ NoDup (layer_id <$> v').
Proof.
  apply (addLayer_twice_same_clock_duplicates_id initial_store initial_layers 9
           DEFAULT_LAYERS).
  reflexivity.
Defined.

(** ** More on links and on edits *)

(** X23. Every link advances by exactly one layer: for a whole-number
    [layerSpacing] from 50 to 400 (what the slider gives), a viewport in
    whole pixels and an array of layers, its target lies one [layerSpacing]
    further along the main axis than its source. *)
Theorem links_advance_one_layer (fp : Float64)
    (layers : list LayerConfig) (settings : VisualSettings)
    (dimensions : Dimensions) :
  whole_between 50 400 (layerSpacing settings) →
  pixel_viewport dimensions →
  array_length_ok layers →
  Forall (λ l, layerIndex (target l) = S (layerIndex (source l))
               ∧ mainCoord settings (target l) - mainCoord settings (source l)
                 == layerSpacing settings)
         (links (computeLayout fp layers settings dimensions)).
Proof.
  intros _ _ _.
  apply Forall_forall. intros l Hl%link_ends.
  apply elem_of_link_pairs in Hl as (Hs & Ht & Hidx & _).
  split; [lia|].
  rewrite (mainCoord_in_graph _ _ _ _ _ Hs), (mainCoord_in_graph _ _ _ _ _ Ht).
  rewrite Hidx, Nat.add_1_r. apply layerMainPos_succ.
Qed.

Lemma links_advance_one_layer_witness :
  Forall (λ l, layerIndex (target l) = S (layerIndex (source l))
               ∧ mainCoord (DEFAULT_SETTINGS 0) (target l)
                 - mainCoord (DEFAULT_SETTINGS 0) (source l)
                 == layerSpacing (DEFAULT_SETTINGS 0))
         (links sample_graph).
Proof.
  apply (links_advance_one_layer sample_fp DEFAULT_LAYERS (DEFAULT_SETTINGS 0)
           sample_dimensions (proj2 (DEFAULT_SETTINGS_sliders 0))
           sample_dimensions_pixels DEFAULT_LAYERS_array_length).
Defined.

(** X24. Adding a layer and then removing the last layer gives back the
    array of before, when it had at least two layers. *)
Theorem removeLayer_undoes_addLayer (σ : Store) (layers : list ref) (now : Z) :
  (2 ≤ length layers)%nat →
  removeLayer (addLayer layers now σ).2 (length layers) = Some layers.
Proof.
  intros Hlen. unfold addLayer, removeLayer. cbv zeta. cbn [snd].
  rewrite filter_index_delete, length_app.
  rewrite bool_decide_eq_false_2 by (cbn; lia).
  by rewrite (delete_middle layers []), app_nil_r.
Qed.

Lemma removeLayer_undoes_addLayer_witness :
  removeLayer (addLayer initial_layers 3 initial_store).2
    (length initial_layers)
  = Some initial_layers.
Proof.
  apply (removeLayer_undoes_addLayer initial_store initial_layers 3).
  vm_compute. lia.
Defined.

(** ** Binary64 arithmetic is exact on the inputs of the application *)

Ltac quarters :=
  unfold Z.sub;
  repeat (rewrite inject_Z_plus || rewrite inject_Z_mult
          || rewrite inject_Z_opp);
  change (inject_Z 2) with 2; change (inject_Z 4) with 4;
  change (inject_Z 5) with 5; change (inject_Z 10) with 10;
  change (inject_Z 1) with 1; change (inject_Z 120) with 120;
  change (inject_Z 320) with 320;
  field.

Lemma round64_quarter (fp : Float64) (q : Q) (z : Z) :
  quarter_exact fp →
  q == inject_Z z / 4 → (- 2 ^ 53 ≤ z ≤ 2 ^ 53)%Z →
  round64 fp q == inject_Z z / 4.
Proof. intros Hq Hz Hb. rewrite (Hq q z Hz Hb). exact Hz. Qed.

Lemma Math_max_Q_preserves (P : Q → Prop) (q : Q) (qs : list Q) :
  P q → Forall P qs → P (Math_max_Q q qs).
Proof.
  unfold Math_max_Q. revert q.
  induction qs as [|x qs IH]; intros q Hq Hqs; [done|].
  apply Forall_cons in Hqs as [Hx Hqs]. cbn [fold_left]. apply IH; [|done].
  unfold Qmax, GenericMinMax.gmax. by destruct (q ?= x).
Qed.

Section Quarters.
Variables (layers : list LayerConfig) (settings : VisualSettings).
Variable dimensions : Dimensions.
Hypothesis Hsettings : slider_settings settings.
Hypothesis Hviewport : pixel_viewport dimensions.
Hypothesis Hlength : array_length_ok layers.
Hypothesis Hcounts : valid_counts layers.

(** The coordinates of a node as multiples of 1/4: the numerators. *)
Lemma graph_node_at_quarters (layerIdx : nat) (layer : LayerConfig) (i : nat) :
  layers !! layerIdx = Some layer →
  (Z.of_nat i < effectiveCount settings (length layers) layerIdx layer)%Z →
  let n := graph_node_at layers settings dimensions layerIdx layer i in
  quarter_pixels (pos_x n) ∧ quarter_pixels (pos_y n).
Proof.
  destruct Hsettings as [(d & HD & Hd) (s & HL & Hs)].
  destruct Hviewport as [(w & HW & Hw) (h & HH & Hh)].
  pose proof Hlength as Hlen. unfold array_length_ok in Hlen.
  intros Hlayer Hi n. subst n.
  assert (1 ≤ neurons layer ≤ 50)%Z as Hn.
  { eapply (proj1 (Forall_forall _ _) Hcounts), list_elem_of_lookup_2, Hlayer. }
  apply lookup_lt_Some in Hlayer.
  set (e := effectiveCount settings (length layers) layerIdx layer) in *.
  assert (1 ≤ e ≤ 51)%Z as He.
  { subst e. unfold effectiveCount. cbv zeta. destruct (_ && _); lia. }
  set (len := Z.of_nat (length layers)) in *.
  set (idx := Z.of_nat layerIdx) in *.
  assert (0 ≤ idx < len)%Z as Hidx by lia.
  set (k := Z.of_nat i) in *.
  assert (0 ≤ k)%Z as Hk by lia.
  unfold graph_node_at, node_at, layoutExtent. cbv zeta.
  cbn [pos_x pos_y]. fold e len idx k.
  destruct (bool_decide (direction settings = horizontal)); split.
  - exists (2 * w - 2 * ((len - 1) * s) + 4 * (idx * s))%Z.
    split; [rewrite HW, HL; quarters|nia].
  - exists (2 * h - 5 * ((e - 1) * d) + 10 * (k * d))%Z.
    split; [rewrite HH, HD; quarters|nia].
  - exists (2 * w - 5 * ((e - 1) * d) + 10 * (k * d))%Z.
    split; [rewrite HW, HD; quarters|nia].
  - exists (2 * h - 2 * ((len - 1) * s) + 4 * (idx * s))%Z.
    split; [rewrite HH, HL; quarters|nia].
Qed.

End Quarters.

Lemma node_pos64_exact (fp : Float64) (layers : list LayerConfig)
    (settings : VisualSettings) (dimensions : Dimensions) (layerIdx : nat)
    (layer : LayerConfig) (i : nat) :
  quarter_exact fp →
  slider_settings settings →
  pixel_viewport dimensions →
  array_length_ok layers →
  valid_counts layers →
  layers !! layerIdx = Some layer →
  (Z.of_nat i < effectiveCount settings (length layers) layerIdx layer)%Z →
  let n := graph_node_at layers settings dimensions layerIdx layer i in
  (node_pos64 fp layers settings dimensions layerIdx layer i).1 == pos_x n
  ∧ (node_pos64 fp layers settings dimensions layerIdx layer i).2 == pos_y n.
Proof.
  intros Hq [(d & HD & Hd) (s & HL & Hs)] [(w & HW & Hw) (h & HH & Hh)] Hlen
         Hvalid Hlayer Hi n. subst n.
  unfold array_length_ok in Hlen.
  assert (1 ≤ neurons layer ≤ 50)%Z as Hn.
  { eapply (proj1 (Forall_forall _ _) Hvalid), list_elem_of_lookup_2, Hlayer. }
  apply lookup_lt_Some in Hlayer.
  set (e := effectiveCount settings (length layers) layerIdx layer) in *.
  assert (1 ≤ e ≤ 51)%Z as He.
  { subst e. unfold effectiveCount. cbv zeta. destruct (_ && _); lia. }
  set (len := Z.of_nat (length layers)) in *.
  set (idx := Z.of_nat layerIdx) in *.
  assert (0 ≤ idx < len)%Z as Hidx by lia.
  set (k := Z.of_nat i) in *.
  assert (0 ≤ k)%Z as Hk by lia.
  unfold node_pos64, graph_node_at, node_at, layoutExtent. cbv zeta.
  cbn [pos_x pos_y fst snd]. fold e len idx k.
  assert (round64 fp (inject_Z (len - 1) * layerSpacing settings)
          == inject_Z (4 * ((len - 1) * s)) / 4) as E1.
  { apply round64_quarter; [done|rewrite HL; quarters|nia]. }
  assert (round64 fp (round64 fp (inject_Z (len - 1) * layerSpacing settings)
                      / 2)
          == inject_Z (2 * ((len - 1) * s)) / 4) as E2.
  { apply round64_quarter; [done|rewrite E1; quarters|nia]. }
  assert (round64 fp (width dimensions / 2) == inject_Z (2 * w) / 4) as E3.
  { apply round64_quarter; [done|rewrite HW; quarters|lia]. }
  assert (round64 fp (height dimensions / 2) == inject_Z (2 * h) / 4) as E4.
  { apply round64_quarter; [done|rewrite HH; quarters|lia]. }
  assert (round64 fp (inject_Z idx * layerSpacing settings)
          == inject_Z (4 * (idx * s)) / 4) as E5.
  { apply round64_quarter; [done|rewrite HL; quarters|nia]. }
  assert (round64 fp (nodeDiameter settings * 2.5) == inject_Z (10 * d) / 4)
    as E6.
  { apply round64_quarter; [done|rewrite HD; quarters|lia]. }
  assert (round64 fp (inject_Z (e - 1)
                      * round64 fp (nodeDiameter settings * 2.5))
          == inject_Z (10 * ((e - 1) * d)) / 4) as E7.
  { apply round64_quarter; [done|rewrite E6; quarters|nia]. }
  assert (round64 fp (round64 fp (inject_Z (e - 1)
                        * round64 fp (nodeDiameter settings * 2.5)) / 2)
          == inject_Z (5 * ((e - 1) * d)) / 4) as E8.
  { apply round64_quarter; [done|rewrite E7; quarters|nia]. }
  assert (round64 fp (inject_Z k * round64 fp (nodeDiameter settings * 2.5))
          == inject_Z (10 * (k * d)) / 4) as E9.
  { apply round64_quarter; [done|rewrite E6; quarters|nia]. }
  destruct (bool_decide (direction settings = horizontal)).
  - assert (round64 fp (round64 fp (width dimensions / 2)
              - round64 fp (round64 fp (inject_Z (len - 1)
                                        * layerSpacing settings) / 2))
            == inject_Z (2 * w - 2 * ((len - 1) * s)) / 4) as E10.
    { apply round64_quarter; [done|rewrite E3, E2; quarters|nia]. }
    assert (round64 fp (round64 fp (height dimensions / 2)
              - round64 fp (round64 fp (inject_Z (e - 1)
                    * round64 fp (nodeDiameter settings * 2.5)) / 2))
            == inject_Z (2 * h - 5 * ((e - 1) * d)) / 4) as E11.
    { apply round64_quarter; [done|rewrite E4, E8; quarters|nia]. }
    split.
    + rewrite (round64_quarter fp _
                 (2 * w - 2 * ((len - 1) * s) + 4 * (idx * s)) Hq);
        [rewrite HW, HL; quarters|rewrite E10, E5; quarters|nia].
    + rewrite (round64_quarter fp _
                 (2 * h - 5 * ((e - 1) * d) + 10 * (k * d)) Hq);
        [rewrite HH, HD; quarters|rewrite E11, E9; quarters|nia].
  - assert (round64 fp (round64 fp (height dimensions / 2)
              - round64 fp (round64 fp (inject_Z (len - 1)
                                        * layerSpacing settings) / 2))
            == inject_Z (2 * h - 2 * ((len - 1) * s)) / 4) as E10.
    { apply round64_quarter; [done|rewrite E4, E2; quarters|nia]. }
    assert (round64 fp (round64 fp (width dimensions / 2)
              - round64 fp (round64 fp (inject_Z (e - 1)
                    * round64 fp (nodeDiameter settings * 2.5)) / 2))
            == inject_Z (2 * w - 5 * ((e - 1) * d)) / 4) as E11.
    { apply round64_quarter; [done|rewrite E3, E8; quarters|nia]. }
    split.
    + rewrite (round64_quarter fp _
                 (2 * w - 5 * ((e - 1) * d) + 10 * (k * d)) Hq);
        [rewrite HW, HD; quarters|rewrite E11, E9; quarters|nia].
    + rewrite (round64_quarter fp _
                 (2 * h - 2 * ((len - 1) * s) + 4 * (idx * s)) Hq);
        [rewrite HH, HL; quarters|rewrite E10, E5; quarters|nia].
Qed.

Lemma sample_fp_quarter_exact : quarter_exact sample_fp.
Proof. intros q z _ _. reflexivity. Qed.

(** X25. On the inputs of the application the coordinates need no rounding:
    with whole-number settings from the sliders, a viewport in whole pixels
    and neuron counts from 1 to 50, and a rounding that leaves the multiples
    of 1/4 up to 2^51 as they are (binary64 does), the coordinates of every
    node of a layout are those that lines 55-68 and 87-94 give when every
    operation is rounded, and they are multiples of a quarter of a pixel. *)
Theorem coordinates_need_no_rounding (fp : Float64)
    (layers : list LayerConfig) (settings : VisualSettings)
    (dimensions : Dimensions) (n : Node) (layer : LayerConfig) :
  quarter_exact fp →
  slider_settings settings →
  pixel_viewport dimensions →
  array_length_ok layers →
  valid_counts layers →
  n ∈ nodes (computeLayout fp layers settings dimensions) →
  layers !! layerIndex n = Some layer →
  let p := node_pos64 fp layers settings dimensions (layerIndex n) layer
             (neuronIndex n) in
  p.1 == pos_x n ∧ p.2 == pos_y n
  ∧ quarter_pixels (pos_x n) ∧ quarter_pixels (pos_y n).
Proof.
  intros Hq Hs Hv Hlen Hc (idx & l & i & Hl & Hi & ->)%elem_of_nodes_iff.
  cbn [layerIndex neuronIndex graph_node_at node_at].
  rewrite Hl. intros [= <-]. cbv zeta.
  pose proof (node_pos64_exact fp layers settings dimensions idx l i Hq Hs Hv
                Hlen Hc Hl Hi) as [Hx Hy].
  pose proof (graph_node_at_quarters layers settings dimensions Hs Hv Hlen Hc
                idx l i Hl Hi) as [Hqx Hqy].
  done.
Qed.

Lemma coordinates_need_no_rounding_witness :
  (node_pos64 sample_fp DEFAULT_LAYERS (DEFAULT_SETTINGS 0) sample_dimensions
     (layerIndex sample_node_0_1) {| layer_id := "l1"; neurons := 18 |}
     (neuronIndex sample_node_0_1)).1
  == pos_x sample_node_0_1.
Proof.
  apply (proj1 (coordinates_need_no_rounding sample_fp DEFAULT_LAYERS
                  (DEFAULT_SETTINGS 0) sample_dimensions sample_node_0_1
                  {| layer_id := "l1"; neurons := 18 |}
                  sample_fp_quarter_exact (DEFAULT_SETTINGS_sliders 0)
                  sample_dimensions_pixels DEFAULT_LAYERS_array_length
                  DEFAULT_LAYERS_valid_counts sample_node_0_1_in eq_refl)).
Defined.

(** X26. Nor do the coordinates of a label: under the same conditions the
    position of every rendered label is the one that lines 247-251 give when
    both additions are rounded. *)
Theorem label_position_needs_no_rounding (fp : Float64)
    (layers : list LayerConfig) (settings : VisualSettings)
    (dimensions : Dimensions) (idx : nat) (lab : Label) :
  quarter_exact fp →
  slider_settings settings →
  pixel_viewport dimensions →
  array_length_ok layers →
  valid_counts layers →
  let graph := computeLayout fp layers settings dimensions in
  renderLabels (nodes graph) layers settings !! idx = Some (Some lab) →
  ∃ p, label_pos64 fp (nodes graph) settings idx = Some p
       ∧ p.1 == label_x lab ∧ p.2 == label_y lab.
Proof.
  intros Hq Hs Hv Hlen Hc graph. subst graph.
  intros (_ & layer & Hl & Hlab)%renderLabels_lookup.
  unfold label_of_layer in Hlab. unfold label_pos64. cbv zeta.
  assert (Forall (λ n, quarter_pixels (pos_x n) ∧ quarter_pixels (pos_y n))
            (filter (λ n, layerIndex n = idx)
               (nodes (computeLayout fp layers settings dimensions)))) as Hall.
  { apply Forall_forall. intros n [_ Hn]%list_elem_of_filter.
    apply elem_of_nodes_iff in Hn as (j & l & i & Hj & Hi & ->).
    by apply graph_node_at_quarters. }
  destruct Hs as [(d & HD & Hd) _].
  destruct (filter _ _) as [|n0 ns]; [done|]. cbn [map] in Hlab |- *.
  apply Forall_cons in Hall as [[Hx0 Hy0] Hall].
  destruct (bool_decide (direction settings = horizontal));
    injection Hlab as <-; cbn [label_x label_y];
    (eexists; split; [reflexivity|]); cbn [fst snd].
  - split; [reflexivity|].
    destruct (Math_max_Q_preserves quarter_pixels (pos_y n0) (map pos_y ns))
      as (z & Hz & Hb); [done| |].
    { apply Forall_fmap. eapply Forall_impl; [exact Hall|]. by intros n [_ ?]. }
    assert (round64 fp (Math_max_Q (pos_y n0) (map pos_y ns)
                        + nodeDiameter settings)
            == inject_Z (z + 4 * d) / 4) as E1.
    { apply round64_quarter; [done|rewrite Hz, HD; quarters|lia]. }
    rewrite (round64_quarter fp _ (z + 4 * d + 120) Hq);
      [rewrite Hz, HD; quarters|rewrite E1; quarters|lia].
  - split; [|reflexivity].
    destruct (Math_max_Q_preserves quarter_pixels (pos_x n0) (map pos_x ns))
      as (z & Hz & Hb); [done| |].
    { apply Forall_fmap. eapply Forall_impl; [exact Hall|]. by intros n [? _]. }
    assert (round64 fp (Math_max_Q (pos_x n0) (map pos_x ns)
                        + nodeDiameter settings)
            == inject_Z (z + 4 * d) / 4) as E1.
    { apply round64_quarter; [done|rewrite Hz, HD; quarters|lia]. }
    rewrite (round64_quarter fp _ (z + 4 * d + 320) Hq);
      [rewrite Hz, HD; quarters|rewrite E1; quarters|lia].
Qed.

Lemma label_position_needs_no_rounding_witness :
  ∃ p, label_pos64 sample_fp (nodes sample_graph) (DEFAULT_SETTINGS 0) 0
       = Some p
       ∧ p.1 == label_x (default (mkLabel "" 0 0 "")
                           (mjoin (renderLabels (nodes sample_graph)
                                     DEFAULT_LAYERS (DEFAULT_SETTINGS 0)
                                   !! 0%nat)))
       ∧ p.2 == label_y (default (mkLabel "" 0 0 "")
                           (mjoin (renderLabels (nodes sample_graph)
                                     DEFAULT_LAYERS (DEFAULT_SETTINGS 0)
                                   !! 0%nat))).
Proof.
  apply (label_position_needs_no_rounding sample_fp DEFAULT_LAYERS
           (DEFAULT_SETTINGS 0) sample_dimensions 0 _
           sample_fp_quarter_exact (DEFAULT_SETTINGS_sliders 0)
           sample_dimensions_pixels DEFAULT_LAYERS_array_length
           DEFAULT_LAYERS_valid_counts).
  vm_compute. reflexivity.
Defined.
